(** * Prod Database -> SQLite exporter: a shallow embedding

    The development follows [src/export_data_from_prod_db.py]:
    [fetch_table_count], [get_table_columns], [recreate_sqlite_table],
    [export_table] and the worker [RdsExportUI._export_worker].

    Modelling choices, once and for all:
    - Python [int] is [Z]; Python [float] (only used for progress fractions)
      is an exact rational [Q], so rounding of binary floats is abstracted;
    - Python [str] used as a value of a row is a list of code points
      ([text]); table and column names are [string];
    - a [dict] is a [gmap];
    - the two database servers are external: MySQL is a finite map of
      tables plus the meaning of WHERE expressions, SQLite is a finite map
      of tables with the transaction discipline of Python's [sqlite3]
      module; either engine may refuse a statement, which is an input of
      the model (a fault oracle), never an assumption of a theorem unless
      stated;
    - every observable effect (statement, commit, fetch, progress update,
      dialog) is recorded, in order, in a trace of [event]s. *)

From Stdlib Require Import ZArith QArith Lia.
From Stdlib.Strings Require Import Byte.
From stdpp Require Import base option list gmap strings pretty.

Local Open Scope string_scope.
Local Open Scope list_scope.
Local Open Scope Z_scope.

(** ** Python values *)

(** A Python [str] held in a row: its code points. *)
Abbreviation text := (list Z) (only parsing).

(** The values a MySQL cursor hands out.  [VOther] stands for objects of
    any further type (float, Decimal, datetime, ...), named by their repr. *)
Inductive value : Type :=
| VNone
| VInt (z : Z)
| VStr (s : text)
| VBytes (b : list byte)
| VByteArray (b : list byte)
| VOther (repr : string).

Abbreviation row := (list value) (only parsing).

Abbreviation exn := string (only parsing).

Inductive result (A : Type) : Type :=
| Ok (a : A)
| Raise (e : exn).
Arguments Ok {A} a.
Arguments Raise {A} e.

(** ** [bytes.decode('utf-8', errors=...)] *)

Definition byte_val (b : byte) : Z := Z.of_N (Byte.to_N b).

Definition between (lo hi x : Z) : bool := (lo <=? x) && (x <=? hi).

Definition is_continuation (c : Z) : bool := between 0x80 0xBF c.

(** Second byte of a three-byte sequence: E0 excludes overlong forms,
    ED excludes the surrogates. *)
Definition second_of_3 (c0 c1 : Z) : bool :=
  if c0 =? 0xE0 then between 0xA0 0xBF c1
  else if c0 =? 0xED then between 0x80 0x9F c1
  else is_continuation c1.

(** Second byte of a four-byte sequence: F0 excludes overlong forms,
    F4 stops at U+10FFFF. *)
Definition second_of_4 (c0 c1 : Z) : bool :=
  if c0 =? 0xF0 then between 0x90 0xBF c1
  else if c0 =? 0xF4 then between 0x80 0x8F c1
  else is_continuation c1.

(** The decoder proper.  Each item of the result is a decoded code point
    ([Some]) or one undecodable stretch of input ([None]): a byte that
    cannot start a sequence, or the longest prefix of a sequence that is
    cut short by a wrong byte or by the end of the input. *)
Fixpoint utf8_scan (bs : list byte) : list (option Z) :=
  match bs with
  | [] => []
  | b0 :: r0 =>
    let c0 := byte_val b0 in
    if c0 <? 0x80 then Some c0 :: utf8_scan r0
    else if between 0xC2 0xDF c0 then
      match r0 with
      | [] => [None]
      | b1 :: r1 =>
        let c1 := byte_val b1 in
        if is_continuation c1
        then Some ((c0 - 0xC0) * 64 + (c1 - 0x80)) :: utf8_scan r1
        else None :: utf8_scan r0
      end
    else if between 0xE0 0xEF c0 then
      match r0 with
      | [] => [None]
      | b1 :: r1 =>
        let c1 := byte_val b1 in
        if second_of_3 c0 c1 then
          match r1 with
          | [] => [None]
          | b2 :: r2 =>
            let c2 := byte_val b2 in
            if is_continuation c2
            then Some ((c0 - 0xE0) * 4096 + (c1 - 0x80) * 64 + (c2 - 0x80))
                   :: utf8_scan r2
            else None :: utf8_scan r1
          end
        else None :: utf8_scan r0
      end
    else if between 0xF0 0xF4 c0 then
      match r0 with
      | [] => [None]
      | b1 :: r1 =>
        let c1 := byte_val b1 in
        if second_of_4 c0 c1 then
          match r1 with
          | [] => [None]
          | b2 :: r2 =>
            let c2 := byte_val b2 in
            if is_continuation c2 then
              match r2 with
              | [] => [None]
              | b3 :: r3 =>
                let c3 := byte_val b3 in
                if is_continuation c3
                then Some ((c0 - 0xF0) * 262144 + (c1 - 0x80) * 4096
                           + (c2 - 0x80) * 64 + (c3 - 0x80))
                       :: utf8_scan r3
                else None :: utf8_scan r2
              end
            else None :: utf8_scan r1
          end
        else None :: utf8_scan r0
      end
    else None :: utf8_scan r0
  end.

Definition REPLACEMENT_CHARACTER : Z := 0xFFFD.

(** [b.decode('utf-8', errors='replace')]: total, no error case. *)
Definition decode_replace (bs : list byte) : text :=
  (fun o => match o with Some c => c | None => REPLACEMENT_CHARACTER end)
    <$> utf8_scan bs.

(** [b.decode('utf-8')], the strict decode, for comparison: it raises on
    the first undecodable stretch. *)
Definition decode_strict (bs : list byte) : result text :=
  match mapM (fun o : option Z => o) (utf8_scan bs) with
  | Some s => Ok s
  | None => Raise "UnicodeDecodeError"
  end.


(** The conversion applied to every cell in [export_table]:
    [v.decode('utf-8', errors='replace') if isinstance(v, (bytes, bytearray)) else v]. *)
Definition convert_value (v : value) : value :=
  match v with
  | VBytes b => VStr (decode_replace b)
  | VByteArray b => VStr (decode_replace b)
  | _ => v
  end.


(** [tuple(converted)] for one row, and the batch built from a page. *)
Definition convert_row (r : row) : row := convert_value <$> r.
Definition convert_rows (rows : list row) : list row := convert_row <$> rows.

(** ** The MySQL side (source, read only) *)

Record mysql_table : Type := MysqlTable {
  mt_columns : list string;   (* in the order SHOW COLUMNS lists them *)
  mt_rows : list row;         (* one value per column *)
}.

(** The three statements the exporter sends. *)
Inductive mysql_stmt : Type :=
| MyCount (table : string)
| MyShowColumns (table : string)
| MySelect (columns : list string) (table : string) (where_clause : option string).

Record mysql_conn : Type := MysqlConn {
  my_tables : gmap string mysql_table;
  (* truth of a WHERE expression on a row of a table with these columns *)
  my_where : string → list string → row → bool;
  (* statements the server fails (time-out, privilege, syntax, ...) *)
  my_fault : mysql_stmt → option exn;
}.

Fixpoint index_of (c : string) (l : list string) : option nat :=
  match l with
  | [] => None
  | x :: l' => if decide (x = c) then Some 0%nat else S <$> index_of c l'
  end.

(** The cells of [r] under the selected columns; [None] when a selected
    column is not a column of the table. *)
Definition project_row (all_columns columns : list string) (r : row) : option row :=
  mapM (fun c => i ← index_of c all_columns; Some (default VNone (r !! i))) columns.

Definition mysql_table_of (conn : mysql_conn) (q : mysql_stmt) (table : string)
  : result mysql_table :=
  match my_fault conn q with
  | Some e => Raise e
  | None =>
    match my_tables conn !! table with
    | Some tb => Ok tb
    | None => Raise ("Table '" +:+ table +:+ "' doesn't exist")
    end
  end.

(** Result of [SELECT COUNT( * ) FROM `table`]. *)
Definition mysql_count (conn : mysql_conn) (table : string) : result Z :=
  match mysql_table_of conn (MyCount table) table with
  | Ok tb => Ok (Z.of_nat (length (mt_rows tb)))
  | Raise e => Raise e
  end.

(** Result of [SHOW COLUMNS FROM `table`], first field of every line. *)
Definition mysql_show_columns (conn : mysql_conn) (table : string) : result (list string) :=
  match mysql_table_of conn (MyShowColumns table) table with
  | Ok tb => Ok (mt_columns tb)
  | Raise e => Raise e
  end.

(** The rows a WHERE clause keeps; all of them without a clause. *)
Definition mysql_matching (conn : mysql_conn) (tb : mysql_table)
    (where_clause : option string) : list row :=
  match where_clause with
  | Some w => List.filter (my_where conn w (mt_columns tb)) (mt_rows tb)
  | None => mt_rows tb
  end.

(** Result set of [SELECT columns FROM `table` [WHERE ...]]. *)
Definition mysql_select (conn : mysql_conn) (columns : list string) (table : string)
    (where_clause : option string) : result (list row) :=
  match mysql_table_of conn (MySelect columns table where_clause) table with
  | Ok tb =>
    match mapM (project_row (mt_columns tb) columns)
               (mysql_matching conn tb where_clause) with
    | Some rows => Ok rows
    | None => Raise "Unknown column in 'field list'"
    end
  | Raise e => Raise e
  end.

(** ** The SQLite side (destination) *)

Record sqlite_table : Type := SqliteTable {
  st_columns : list string;   (* every column is declared TEXT *)
  st_rows : list row;
}.

Inductive sqlite_stmt : Type :=
| SqPragma (setting : string)
| SqDropTableIfExists (table : string)
| SqCreateTable (table : string) (columns : list string)
| SqInsert (table : string) (columns : list string) (values : row).

(** A connection of Python's [sqlite3] module in its default transaction
    handling: a transaction is opened implicitly before an INSERT, PRAGMA
    and DDL statements run where they stand, [commit] makes the pending
    changes durable and [close] abandons them. *)
Record sqlite_conn : Type := SqliteConn {
  sq_file : gmap string sqlite_table;   (* committed: what the file holds *)
  sq_view : gmap string sqlite_table;   (* what the connection sees *)
  sq_in_transaction : bool;
  sq_fault : sqlite_stmt → option exn;  (* statements the engine refuses *)
}.

Definition sqlite_opened (file : gmap string sqlite_table)
    (fault : sqlite_stmt → option exn) : sqlite_conn :=
  SqliteConn file file false fault.

(** A change outside INSERT is durable at once unless a transaction is open. *)
Definition sqlite_apply_ddl (view' : gmap string sqlite_table) (c : sqlite_conn)
  : sqlite_conn :=
  SqliteConn (if sq_in_transaction c then sq_file c else view') view'
             (sq_in_transaction c) (sq_fault c).

Definition sqlite_apply_dml (view' : gmap string sqlite_table) (c : sqlite_conn)
  : sqlite_conn :=
  SqliteConn (sq_file c) view' true (sq_fault c).

(** One statement on the connection. *)
Definition sqlite_run (s : sqlite_stmt) (c : sqlite_conn) : result unit * sqlite_conn :=
  match sq_fault c s with
  | Some e => (Raise e, c)
  | None =>
    match s with
    | SqPragma _ => (Ok tt, c)
    | SqDropTableIfExists t => (Ok tt, sqlite_apply_ddl (delete t (sq_view c)) c)
    | SqCreateTable t cols =>
      match sq_view c !! t with
      | Some _ => (Raise ("table " +:+ t +:+ " already exists"), c)
      | None => (Ok tt, sqlite_apply_ddl (<[t := SqliteTable cols []]> (sq_view c)) c)
      end
    | SqInsert t cols vals =>
      match sq_view c !! t with
      | None => (Raise ("no such table: " +:+ t), c)
      | Some tb =>
        if negb (bool_decide (cols = st_columns tb))
        then (Raise ("table " +:+ t +:+ " has other columns"), c)
        else if negb (length vals =? length cols)%nat
        then (Raise "Incorrect number of bindings supplied", c)
        else (Ok tt, sqlite_apply_dml
                       (<[t := SqliteTable (st_columns tb) (st_rows tb ++ [vals])]>
                          (sq_view c)) c)
      end
    end
  end.

(** [executemany]: the INSERT once per row of the batch, stopping at the
    first row the engine refuses; the rows before it stay pending. *)
Fixpoint sqlite_run_many (t : string) (cols : list string) (batch : list row)
    (c : sqlite_conn) : result unit * sqlite_conn :=
  match batch with
  | [] => (Ok tt, c)
  | r :: batch' =>
    match sqlite_run (SqInsert t cols r) c with
    | (Ok _, c') => sqlite_run_many t cols batch' c'
    | (Raise e, c') => (Raise e, c')
    end
  end.

Definition sqlite_do_commit (c : sqlite_conn) : sqlite_conn :=
  SqliteConn (sq_view c) (sq_view c) false (sq_fault c).

Definition sqlite_do_close (c : sqlite_conn) : sqlite_conn :=
  SqliteConn (sq_file c) (sq_file c) false (sq_fault c).

(** ** Observable effects *)

Inductive event : Type :=
| EMysqlExecute (q : mysql_stmt)
| EMysqlFetchmany (size : nat) (returned : list row)
| EMysqlClose
| ESqliteConnect
| ESqliteExecute (s : sqlite_stmt)
| ESqliteExecutemany (table : string) (columns : list string) (batch : list row)
| ESqliteCommit
| ESqliteClose
| EProgress (fraction : Q) (message : string)
| EShowError (title body : string)
| EShowInfo (title body : string)
| EHideAuxFiles
| EAskOpenFolder
| ERunButton (enabled : bool)
| ERefreshStatus.

(** ** The effect monad: destination state, exceptions, trace *)

Definition M (A : Type) : Type := sqlite_conn → result A * sqlite_conn * list event.

Definition ret {A} (a : A) : M A := fun c => (Ok a, c, []).

Definition raise {A} (e : exn) : M A := fun c => (Raise e, c, []).

Definition bind {A B} (m : M A) (k : A → M B) : M B :=
  fun c =>
    match m c with
    | (Ok a, c1, tr1) => let '(r, c2, tr2) := k a c1 in (r, c2, tr1 ++ tr2)
    | (Raise e, c1, tr1) => (Raise e, c1, tr1)
    end.

(** [try: m except Exception as e: handler e] *)
Definition try_except {A} (m : M A) (handler : exn → M A) : M A :=
  fun c =>
    match m c with
    | (Ok a, c1, tr1) => (Ok a, c1, tr1)
    | (Raise e, c1, tr1) => let '(r, c2, tr2) := handler e c1 in (r, c2, tr1 ++ tr2)
    end.

(** [try: m finally: f] *)
Definition try_finally {A} (m : M A) (f : M unit) : M A :=
  fun c =>
    let '(r, c1, tr1) := m c in
    match f c1 with
    | (Ok _, c2, tr2) => (r, c2, tr1 ++ tr2)
    | (Raise e, c2, tr2) => (Raise e, c2, tr1 ++ tr2)
    end.

Definition emit (e : event) : M unit := fun c => (Ok tt, c, [e]).

Definition lift {A} (r : result A) : M A := fun c => (r, c, []).

#[global] Instance M_ret : MRet M := @ret.
#[global] Instance M_bind : MBind M := fun A B k m => bind m k.

Definition outcome {A} (x : result A * sqlite_conn * list event) : result A := x.1.1.
Definition final {A} (x : result A * sqlite_conn * list event) : sqlite_conn := x.1.2.
Definition trace {A} (x : result A * sqlite_conn * list event) : list event := x.2.

(** *** Primitive operations *)

Definition mysql_execute_count (conn : mysql_conn) (table : string) : M Z :=
  emit (EMysqlExecute (MyCount table));; lift (mysql_count conn table).

Definition mysql_execute_show_columns (conn : mysql_conn) (table : string)
  : M (list string) :=
  emit (EMysqlExecute (MyShowColumns table));; lift (mysql_show_columns conn table).

Definition mysql_execute_select (conn : mysql_conn) (columns : list string)
    (table : string) (where_clause : option string) : M (list row) :=
  emit (EMysqlExecute (MySelect columns table where_clause));;
  lift (mysql_select conn columns table where_clause).

(** [cursor.fetchmany(size)] on a buffered cursor: the next [size] rows
    and the cursor left behind. *)
Definition fetchmany (size : nat) (buffered : list row) : M (list row * list row) :=
  emit (EMysqlFetchmany size (take size buffered));;
  ret (take size buffered, drop size buffered).

Definition sqlite_execute (s : sqlite_stmt) : M unit :=
  fun c => let '(r, c') := sqlite_run s c in (r, c', [ESqliteExecute s]).

Definition sqlite_executemany (t : string) (cols : list string) (batch : list row)
  : M unit :=
  fun c => let '(r, c') := sqlite_run_many t cols batch c in
           (r, c', [ESqliteExecutemany t cols batch]).

Definition sqlite_commit : M unit :=
  fun c => (Ok tt, sqlite_do_commit c, [ESqliteCommit]).

Definition sqlite_close : M unit :=
  fun c => (Ok tt, sqlite_do_close c, [ESqliteClose]).

(** ** Configuration *)

Definition TABLES_TO_EXPORT : list string :=
  [ "contacts"; "contact_skip_traced_addresses"; "contact_addresses";
    "contact_phone_numbers"; "contact_email_addresses"; "contact_serial_numbers";
    "contact_targets"; "remove_contacts"; "upload_processors" ].

Definition TABLE_FILTERS : gmap string string :=
  <["upload_processors" := "uploaded_by IN (106, 109)"]>
  (<["remove_contacts" := "removed_by_user_id IN (106, 109)"]> ∅).

Definition CHUNK_SIZE : nat := 1000.

Definition nl : string := String (Ascii.ascii_of_nat 10) EmptyString.

(** ** Formatting of progress messages *)

Definition round_half_even (q : Q) : Z :=
  let n := Qnum q in
  let d := Z.pos (Qden q) in
  let fl := n / d in
  let twice := 2 * (n mod d) in
  if twice <? d then fl
  else if d <? twice then fl + 1
  else if Z.even fl then fl else fl + 1.

(** [f"{x:.1f}"] on the exact value of [x]. *)
Definition format_1f (x : Q) : string :=
  let t := round_half_even (x * 10)%Q in
  (if t <? 0 then "-" else "") +:+ pretty (Z.abs t / 10) +:+ "." +:+ pretty (Z.abs t mod 10).

(** [f"{table} (0 rows)"] *)
Definition zero_rows_message (table : string) : string := table +:+ " (0 rows)".

(** [f"{table}: {rows_inserted}/{total_rows} rows ({table_progress*100:.1f}%)"] *)
Definition rows_message (table : string) (rows_inserted total_rows : Z)
    (table_progress : Q) : string :=
  table +:+ ": " +:+ pretty rows_inserted +:+ "/" +:+ pretty total_rows
        +:+ " rows (" +:+ format_1f (table_progress * 100)%Q +:+ "%)".

(** ** MySQL <> SQLite logic *)

Definition callback := Q → string → M unit.

Section Exporter.

(** [TABLE_FIELDS], read from table_fields.json when the program starts
    (empty when the file is absent). *)
Variable TABLE_FIELDS : gmap string (list string).

Definition fetch_table_count (mysql_conn : mysql_conn) (table : string) : M Z :=
  mysql_execute_count mysql_conn table.

Definition get_table_columns (mysql_conn : mysql_conn) (table : string)
  : M (list string) :=
  all_columns ← mysql_execute_show_columns mysql_conn table;
  match TABLE_FIELDS !! table with
  | Some allowed => mret (filter (fun c => c ∈ all_columns) allowed)
  | None => mret all_columns
  end.

Definition recreate_sqlite_table (table : string) (columns : list string) : M unit :=
  sqlite_execute (SqPragma "foreign_keys = OFF");;
  sqlite_commit;;
  sqlite_execute (SqDropTableIfExists table);;
  sqlite_execute (SqCreateTable table columns);;
  sqlite_commit.

(** [if progress_callback: progress_callback(fraction, message)] *)
Definition notify (progress_callback : option callback) (fraction : Q)
    (message : string) : M unit :=
  match progress_callback with
  | Some cb => cb fraction message
  | None => mret tt
  end.

(** The loop [for _ in batch] that follows the commit of a page. *)
Fixpoint report_rows (progress_callback : option callback) (table : string)
    (offset_progress table_weight : Q) (total_rows : Z)
    (batch : list row) (rows_inserted : Z) : M Z :=
  match batch with
  | [] => mret rows_inserted
  | _ :: batch' =>
    let rows_inserted := rows_inserted + 1 in
    (if rows_inserted mod 50 =? 0 then
       let table_progress := (inject_Z rows_inserted / inject_Z total_rows)%Q in
       let overall_fraction := (offset_progress + table_weight * table_progress)%Q in
       notify progress_callback overall_fraction
              (rows_message table rows_inserted total_rows table_progress)
     else mret tt);;
    report_rows progress_callback table offset_progress table_weight total_rows
                batch' rows_inserted
  end.

(** The loop [while True] over the pages of the cursor.  [fuel] bounds
    the number of iterations of the model; [export_table] passes more
    than the loop can use. *)
Fixpoint export_pages (fuel : nat) (progress_callback : option callback)
    (table : string) (columns : list string)
    (offset_progress table_weight : Q) (total_rows : Z)
    (cursor : list row) (rows_inserted : Z) : M unit :=
  match fuel with
  | O => raise "export_pages: out of fuel"
  | S fuel' =>
    fetched ← fetchmany CHUNK_SIZE cursor;
    match fetched.1 with
    | [] => mret tt
    | _ :: _ =>
      let batch := convert_rows fetched.1 in
      sqlite_executemany table columns batch;;
      sqlite_commit;;
      rows_inserted' ← report_rows progress_callback table offset_progress
                                   table_weight total_rows batch rows_inserted;
      export_pages fuel' progress_callback table columns offset_progress
                   table_weight total_rows fetched.2 rows_inserted'
    end
  end.

Definition export_table (mysql_conn : mysql_conn) (table : string)
    (progress_callback : option callback)
    (offset_progress table_weight : Q) : M unit :=
  total_rows ← try_except (fetch_table_count mysql_conn table) (fun _ => mret 0);
  columns ← get_table_columns mysql_conn table;
  recreate_sqlite_table table columns;;
  if total_rows =? 0 then
    notify progress_callback (offset_progress + table_weight)%Q
           (zero_rows_message table)
  else
    let where_clause := TABLE_FILTERS !! table in
    cursor ← mysql_execute_select mysql_conn columns table where_clause;
    export_pages (S (length cursor)) progress_callback table columns
                 offset_progress table_weight total_rows cursor 0.

End Exporter.

(** ** The worker of the window *)

Module RdsExportUI.

(** [self.progress_callback]: sets the bar and the label; never raises. *)
Definition progress_callback : callback :=
  fun fraction message => emit (EProgress fraction message).

Section Worker.

Variable TABLE_FIELDS : gmap string (list string).

(** [for t in selected_tables] with its counter [tables_done]. *)
Fixpoint export_loop (mysql_conn : mysql_conn) (per_table_weight : Q)
    (tables : list string) (tables_done : Z) : M unit :=
  match tables with
  | [] => mret tt
  | t :: rest =>
    let offset := (per_table_weight * inject_Z tables_done)%Q in
    progress_callback offset ("Preparing to export " +:+ t +:+ "...");;
    export_table TABLE_FIELDS mysql_conn t (Some progress_callback)
                 offset per_table_weight;;
    export_loop mysql_conn per_table_weight rest (tables_done + 1)
  end.

Definition per_table_weight (selected_tables : list string) : Q :=
  let n := Z.of_nat (length selected_tables) in
  if n =? 0 then 1%Q else (1 / inject_Z n)%Q.

(** [mysql_connect] is what [get_mysql_connection()] yields, and
    [sqlite_connect] whether [sqlite3.connect] raises; the state the
    computation starts from is the connection to the destination file. *)
Definition _export_worker (selected_tables : list string)
    (mysql_connect : result mysql_conn) (sqlite_connect : option exn)
    (selected_db_path : string) : M unit :=
  match selected_tables with
  | [] =>
    emit (EShowInfo "No tables" "No tables selected for export.");;
    emit (ERunButton true)
  | _ :: _ =>
    progress_callback (2 # 100) "Connecting to MySQL...";;
    match mysql_connect with
    | Raise e =>
      emit (EShowError "MySQL connection error"
                       ("Failed to connect to MySQL:" +:+ nl +:+ e));;
      emit (ERunButton true);;
      progress_callback 0%Q "Connection failed."
    | Ok mysql_conn =>
      opened ← try_except
        (lift (match sqlite_connect with Some e => Raise e | None => Ok tt end);;
         emit ESqliteConnect;;
         sqlite_execute (SqPragma "journal_mode=WAL");;
         sqlite_execute (SqPragma "synchronous=NORMAL");;
         mret true)
        (fun e =>
           emit (EShowError "SQLite error"
                            ("Failed to open/create SQLite DB:" +:+ nl +:+ e));;
           emit EMysqlClose;;
           emit (ERunButton true);;
           mret false);
      if opened : bool then
        let w := per_table_weight selected_tables in
        try_finally
          (try_except
             (export_loop mysql_conn w selected_tables 0;;
              sqlite_commit;;
              sqlite_close;;
              emit EMysqlClose;;
              emit EHideAuxFiles;;
              progress_callback 1%Q
                ("Export complete. Local DB saved at:" +:+ nl +:+ selected_db_path);;
              emit EAskOpenFolder)
             (fun e =>
                sqlite_close;;
                emit EMysqlClose;;
                progress_callback 0%Q ("Export failed: " +:+ e);;
                emit (EShowError "Export failed"
                                 ("An error occurred during export:" +:+ nl +:+ e))))
          (emit (ERunButton true);; emit ERefreshStatus)
      else mret tt
    end
  end.

End Worker.

End RdsExportUI.

(** ** Vocabulary of the statements *)

(** The columns [get_table_columns] settles on, given what SHOW COLUMNS
    listed. *)
Definition exported_columns (TABLE_FIELDS : gmap string (list string))
    (table : string) (discovered : list string) : list string :=
  match TABLE_FIELDS !! table with
  | Some allowed => filter (fun c => c ∈ discovered) allowed
  | None => discovered
  end.

(** The engine refuses none of the statements of [recreate_sqlite_table]. *)
Definition recreate_accepted (fault : sqlite_stmt → option exn)
    (table : string) (columns : list string) : Prop :=
  fault (SqPragma "foreign_keys = OFF") = None
  ∧ fault (SqDropTableIfExists table) = None
  ∧ fault (SqCreateTable table columns) = None.

Definition recreate_trace (table : string) (columns : list string) : list event :=
  [ ESqliteExecute (SqPragma "foreign_keys = OFF"); ESqliteCommit;
    ESqliteExecute (SqDropTableIfExists table);
    ESqliteExecute (SqCreateTable table columns); ESqliteCommit ].

(** The connection once [table] has been replaced by an empty table. *)
Definition recreated (c : sqlite_conn) (table : string) (columns : list string)
  : sqlite_conn :=
  let m := <[table := SqliteTable columns []]> (sq_view c) in
  SqliteConn m m false (sq_fault c).

(** The progress updates of a trace, in order. *)
Definition progress_updates (tr : list event) : list (Q * string) :=
  omap (fun e => match e with EProgress f m => Some (f, m) | _ => None end) tr.

(** The update [report_rows] sends when its counter reaches [k]. *)
Definition row_update (table : string) (offset weight : Q) (total k : Z)
  : Q * string :=
  ((offset + weight * (inject_Z k / inject_Z total))%Q,
   rows_message table k total (inject_Z k / inject_Z total)%Q).

(** The updates for the counter values [k0 + 1 .. k0 + n]: one for each
    multiple of 50 among them. *)
Definition row_updates (table : string) (offset weight : Q) (total k0 : Z) (n : nat)
  : list (Q * string) :=
  row_update table offset weight total
    <$> filter (fun k => k mod 50 = 0) (seqZ (k0 + 1) (Z.of_nat n)).

Definition progress_events (l : list (Q * string)) : list event :=
  (fun p => EProgress p.1 p.2) <$> l.

Definition ui : option callback := Some RdsExportUI.progress_callback.

(** [total_rows] as [export_table] computes it: the count, or 0 when the
    count query raises. *)
Definition counted_rows (conn : mysql_conn) (table : string) : Z :=
  match mysql_count conn table with
  | Ok n => n
  | Raise _ => 0
  end.

(** What [export_table] does once the table has been recreated. *)
Definition export_body (conn : mysql_conn) (table : string)
    (progress_callback : option callback) (offset_progress table_weight : Q)
    (total_rows : Z) (columns : list string) : M unit :=
  if total_rows =? 0 then
    notify progress_callback (offset_progress + table_weight)%Q
           (zero_rows_message table)
  else
    cursor ← mysql_execute_select conn columns table (TABLE_FILTERS !! table);
    export_pages (S (length cursor)) progress_callback table columns
                 offset_progress table_weight total_rows cursor 0.

Definition export_head (table : string) (columns : list string) : list event :=
  [EMysqlExecute (MyCount table); EMysqlExecute (MyShowColumns table)]
    ++ recreate_trace table columns.

(** Nothing is pending on the connection. *)
Definition settled (c : sqlite_conn) : Prop :=
  sq_file c = sq_view c ∧ sq_in_transaction c = false.

(** The engine takes the row when it is inserted into [t]. *)
Definition accepted (fault : sqlite_stmt → option exn) (t : string)
    (cols : list string) (r : row) : Prop :=
  fault (SqInsert t cols r) = None.

(** The engine takes the rows of a batch up to one, which it refuses
    with [e]: the [executemany] of the batch raises [e]. *)
Definition batch_refused (fault : sqlite_stmt → option exn) (t : string)
    (cols : list string) (batch : list row) (e : exn) : Prop :=
  ∃ good r rest,
    batch = good ++ r :: rest
    ∧ Forall (accepted fault t cols) good
    ∧ fault (SqInsert t cols r) = Some e.

(** The trace of the loop over the pages: each page that is fetched is
    written by one [executemany] and committed, then reported, before the
    next fetch; the loop ends on an empty fetch, or on a write that
    raises. *)
Inductive page_protocol (t : string) (cols : list string) : list event → Prop :=
| protocol_end :
    page_protocol t cols [EMysqlFetchmany CHUNK_SIZE []]
| protocol_raise page :
    page ≠ [] →
    page_protocol t cols
      [EMysqlFetchmany CHUNK_SIZE page; ESqliteExecutemany t cols (convert_rows page)]
| protocol_page page updates rest :
    page ≠ [] →
    page_protocol t cols rest →
    page_protocol t cols
      (EMysqlFetchmany CHUNK_SIZE page
         :: ESqliteExecutemany t cols (convert_rows page)
         :: ESqliteCommit
         :: progress_events updates ++ rest).

(** The pieces of the trace of the worker around the loop over the tables. *)
Definition opening_trace : list event :=
  [ EProgress (2 # 100) "Connecting to MySQL..."; ESqliteConnect;
    ESqliteExecute (SqPragma "journal_mode=WAL");
    ESqliteExecute (SqPragma "synchronous=NORMAL") ].

Definition completion_trace (selected_db_path : string) : list event :=
  [ ESqliteCommit; ESqliteClose; EMysqlClose; EHideAuxFiles;
    EProgress 1 ("Export complete. Local DB saved at:" +:+ nl +:+ selected_db_path);
    EAskOpenFolder; ERunButton true; ERefreshStatus ].

Definition failure_trace (e : exn) : list event :=
  [ ESqliteClose; EMysqlClose;
    EProgress 0 ("Export failed: " +:+ e);
    EShowError "Export failed" ("An error occurred during export:" +:+ nl +:+ e);
    ERunButton true; ERefreshStatus ].

(** The engine accepts the two PRAGMAs sent when the file is opened. *)
Definition opening_accepted (fault : sqlite_stmt → option exn) : Prop :=
  fault (SqPragma "journal_mode=WAL") = None
  ∧ fault (SqPragma "synchronous=NORMAL") = None.

Definition preparing (t : string) : string := "Preparing to export " +:+ t +:+ "...".


(** ** Sample data for the worked cases *)

Definition no_fault {A} : A → option exn := fun _ => None.

(** [removed_by_user_id IN (106, 109)] and [uploaded_by IN (106, 109)]
    on a row; any other expression keeps every row. *)
Definition sample_where (w : string) (columns : list string) (r : row) : bool :=
  let cell name :=
    match index_of name columns with
    | Some i => default VNone (r !! i)
    | None => VNone
    end in
  let in_106_109 v :=
    match v with
    | VInt z => (z =? 106) || (z =? 109)
    | _ => false
    end in
  if bool_decide (w = "removed_by_user_id IN (106, 109)")
  then in_106_109 (cell "removed_by_user_id")
  else if bool_decide (w = "uploaded_by IN (106, 109)")
  then in_106_109 (cell "uploaded_by")
  else true.

Definition numbered_rows (n : nat) : list row :=
  (fun i => [VInt (Z.of_nat i)]) <$> seq 1 n.

Definition sample_tables : gmap string mysql_table :=
  <["contacts" :=
      MysqlTable ["id"; "name"; "email"]
        [ [VInt 1; VBytes [x41; xff]; VStr [0x61]];
          [VInt 2; VNone; VByteArray [xc3; xa9]];
          [VInt 3; VStr [0x42]; VNone] ]]>
  (<["contact_addresses" := MysqlTable ["id"] [[VInt 1]]]>
  (<["contact_targets" := MysqlTable ["id"; "target"] []]>
  (<["contact_phone_numbers" := MysqlTable ["id"] (numbered_rows 1050)]>
  (<["contact_serial_numbers" :=
       MysqlTable ["serial"]
         (numbered_rows 1000 ++ [[VOther "Decimal('1.5')"]; [VInt 1002]])]>
  (<["remove_contacts" :=
       MysqlTable ["id"; "removed_by_user_id"]
         [ [VInt 1; VInt 106]; [VInt 2; VInt 7]; [VInt 3; VInt 109];
           [VInt 4; VInt 8]; [VInt 5; VNone] ]]> ∅))))).

Definition sample_mysql : mysql_conn := MysqlConn sample_tables sample_where no_fault.

(** The same server when the count on [contacts] times out. *)
Definition sample_mysql_count_fault : mysql_conn :=
  MysqlConn sample_tables sample_where
    (fun q => match q with
              | MyCount t =>
                if bool_decide (t = "contacts")
                then Some "Lock wait timeout exceeded" else None
              | _ => None
              end).

(** Python's [sqlite3] binds None, int, str and bytes; it refuses objects
    of other types. *)
Definition sample_fault (s : sqlite_stmt) : option exn :=
  match s with
  | SqInsert _ _ vals =>
    if existsb (fun v => match v with VOther _ => true | _ => false end) vals
    then Some "Error binding parameter 1: type 'decimal.Decimal' is not supported"
    else None
  | _ => None
  end.

Definition sample_fields : gmap string (list string) :=
  <["contacts" := ["email"; "ghost"; "id"; "email"]]> ∅.

(** A destination that already holds an export of [contacts]. *)
Definition sample_destination : gmap string sqlite_table :=
  <["contacts" := SqliteTable ["id"; "name"] [[VInt 1; VStr [0x41]]]]> ∅.

#[global] Instance accepted_dec fault t cols r : Decision (accepted fault t cols r).
Proof. unfold accepted. apply _. Defined.

From Stdlib Require Import Sorted.

(** ** Further vocabulary *)

(** An engine that parses: CREATE TABLE needs at least one column. *)
Definition sample_syntax_fault (s : sqlite_stmt) : option exn :=
  match s with
  | SqCreateTable _ [] => Some "near ')': syntax error"
  | _ => None
  end.

(** The batches handed to [executemany], in order. *)
Definition batches (tr : list event) : list (list row) :=
  omap (fun e => match e with ESqliteExecutemany _ _ b => Some b | _ => None end) tr.

(** The events of a trace that are not progress updates. *)
Definition silent (tr : list event) : list event :=
  List.filter (fun e => match e with EProgress _ _ => false | _ => true end) tr.

(** The sample server when the connection drops on the SELECT of
    [contacts]. *)
Definition sample_mysql_select_fault : mysql_conn :=
  MysqlConn sample_tables sample_where
    (fun q => match q with
              | MySelect _ t _ =>
                if bool_decide (t = "contacts")
                then Some "Lost connection to MySQL server during query" else None
              | _ => None
              end).







(** ** Credentials and connection ([get_mysql_connection]) *)

(** What [os.getenv] gave for the settings of the .env file. *)
Record credentials : Type := Credentials {
  DB_HOST : option string;
  DB_USER : option string;
  DB_PASSWORD : option string;
  DB_NAME : option string;
  DB_PORT : Z;
}.

(** Truth value of [os.getenv(...)]: [None] and the empty string are false. *)
Definition truthy (o : option string) : bool :=
  match o with
  | Some s => negb (bool_decide (s = ""))
  | None => false
  end.

(** [all([DB_HOST, DB_USER, DB_PASSWORD, DB_NAME])] *)
Definition credentials_present (creds : credentials) : bool :=
  truthy (DB_HOST creds) && truthy (DB_USER creds)
  && truthy (DB_PASSWORD creds) && truthy (DB_NAME creds).

(** [connect] is [mysql.connector.connect] with the settings. *)
Definition get_mysql_connection (creds : credentials)
    (connect : credentials → result mysql_conn) : result mysql_conn :=
  if negb (credentials_present creds)
  then Raise "Missing database credentials. Ensure DB_HOST, DB_USER, DB_PASSWORD, DB_NAME are set in .env"
  else connect creds.

(** ** What the window shows *)

(** The bar, the label under it, and whether START EXPORT is enabled. *)
Record ui_state : Type := UiState {
  ui_bar : Q;
  ui_label : string;
  ui_run_enabled : bool;
}.

(** The effect of an event on the window.  [progress_callback] sets the
    bar and, [if message:], the label; [refresh_status] resets both and
    enables the button when the credentials are present. *)
Definition ui_step (creds_present : bool) (s : ui_state) (e : event) : ui_state :=
  match e with
  | EProgress f m =>
    UiState f (if bool_decide (m = "") then ui_label s else m) (ui_run_enabled s)
  | ERunButton b => UiState (ui_bar s) (ui_label s) b
  | ERefreshStatus => UiState 0 "Waiting to start..." creds_present
  | _ => s
  end.

Definition ui_after (creds_present : bool) (s : ui_state) (tr : list event)
  : ui_state :=
  foldl (ui_step creds_present) s tr.

(** The error met while the destination is opened, if any. *)
Definition opening_error (sqlite_connect : option exn)
    (fault : sqlite_stmt → option exn) : option exn :=
  match sqlite_connect with
  | Some e => Some e
  | None =>
    match fault (SqPragma "journal_mode=WAL") with
    | Some e => Some e
    | None => fault (SqPragma "synchronous=NORMAL")
    end
  end.

Definition sample_credentials : credentials :=
  Credentials (Some "db.example.com") (Some "exporter") (Some "") (Some "prod") 3306.

(** ** The check boxes ([__init__], [_export_worker]) *)

(** [d[k] = v] on a Python dict, which keeps the order of insertion. *)
Fixpoint dict_set {V} (k : string) (v : V) (d : list (string * V))
  : list (string * V) :=
  match d with
  | [] => [(k, v)]
  | (k', v') :: d' =>
    if decide (k' = k) then (k, v) :: d' else (k', v') :: dict_set k v d'
  end.

(** [self.table_vars] as [__init__] fills it: one variable per table,
    ticked. *)
Definition table_vars (tables : list string) : list (string * bool) :=
  foldl (fun d t => dict_set t true d) [] tables.

(** The user clicks the box of [t]. *)
Definition click (vars : list (string * bool)) (t : string) : list (string * bool) :=
  (fun p : string * bool => if decide (p.1 = t) then (p.1, negb p.2) else p) <$> vars.

(** [[t for t, var in self.table_vars.items() if var.get()]] *)
Definition selected_tables (vars : list (string * bool)) : list string :=
  (filter (fun p : string * bool => p.2 = true) vars).*1.

(** How often [t] was clicked. *)
Definition clicks_on (t : string) (clicks : list string) : nat :=
  length (filter (fun x => x = t) clicks).

(** ** Reasoning about runs *)

Lemma run_bind {A B} (m : M A) (k : A → M B) (c : sqlite_conn) :
  (m ≫= k) c =
  match m c with
  | (Ok a, c1, tr1) => let '(r, c2, tr2) := k a c1 in (r, c2, tr1 ++ tr2)
  | (Raise e, c1, tr1) => (Raise e, c1, tr1)
  end.
Proof. reflexivity. Qed.

Ltac unfold_run :=
  unfold sqlite_execute, sqlite_executemany, sqlite_commit, sqlite_close,
    mysql_execute_count, mysql_execute_show_columns, mysql_execute_select,
    fetchmany, emit, lift, try_except, try_finally, raise,
    mbind, M_bind, bind, mret, M_ret, ret.

Lemma sublist_filter_greatest {A} (P : A → Prop) `{!∀ x, Decision (P x)}
    (l k : list A) :
  l `sublist_of` k → Forall P l → l `sublist_of` filter P k.
Proof.
  induction 1 as [|x l k Hlk IH|x l k Hlk IH]; intros HP.
  - constructor.
  - apply Forall_cons in HP as [Hx HP].
    rewrite filter_cons_True by done. constructor. auto.
  - rewrite filter_cons. case_decide; [constructor|]; auto.
Qed.

Lemma get_table_columns_run TABLE_FIELDS conn table discovered c :
  mysql_show_columns conn table = Ok discovered →
  get_table_columns TABLE_FIELDS conn table c
  = (Ok (exported_columns TABLE_FIELDS table discovered), c,
     [EMysqlExecute (MyShowColumns table)]).
Proof.
  intros Hshow. unfold get_table_columns, exported_columns. unfold_run. cbn.
  rewrite Hshow. cbn. by destruct (TABLE_FIELDS !! table).
Qed.

Lemma get_table_columns_raise TABLE_FIELDS conn table e c :
  mysql_show_columns conn table = Raise e →
  get_table_columns TABLE_FIELDS conn table c
  = (Raise e, c, [EMysqlExecute (MyShowColumns table)]).
Proof.
  intros Hshow. unfold get_table_columns. unfold_run. cbn. by rewrite Hshow.
Qed.

(** C2. With an allow-list configured for the table, the columns resolved
    are the allow-list entries that SHOW COLUMNS also lists, in allow-list
    order: a sublist of the allow-list, holding exactly the entries that are
    discovered, and the greatest such sublist (no entry that is discovered
    is dropped); nothing is raised for the entries that are dropped.
    Without an allow-list the discovered columns come back unchanged. *)
Theorem resolve_export_columns_spec
    (TABLE_FIELDS : gmap string (list string)) (conn : mysql_conn)
    (table : string) (discovered : list string) (c : sqlite_conn) :
  mysql_show_columns conn table = Ok discovered →
  (∀ allowed, TABLE_FIELDS !! table = Some allowed →
     ∃ cols,
       get_table_columns TABLE_FIELDS conn table c
         = (Ok cols, c, [EMysqlExecute (MyShowColumns table)])
       ∧ cols `sublist_of` allowed
       ∧ (∀ x, x ∈ cols ↔ x ∈ allowed ∧ x ∈ discovered)
       ∧ (∀ l, l `sublist_of` allowed → Forall (λ x, x ∈ discovered) l →
               l `sublist_of` cols))
  ∧ (TABLE_FIELDS !! table = None →
     get_table_columns TABLE_FIELDS conn table c
       = (Ok discovered, c, [EMysqlExecute (MyShowColumns table)])).
Proof.
  intros Hshow. rewrite (get_table_columns_run _ _ _ _ _ Hshow).
  unfold exported_columns. split.
  - intros allowed ->.
    exists (filter (λ x, x ∈ discovered) allowed). split; [done|].
    split; [apply sublist_filter|]. split.
    + intros x. rewrite list_elem_of_filter. tauto.
    + intros l Hl HP. by apply sublist_filter_greatest.
  - by intros ->.
Qed.

Lemma recreate_sqlite_table_run c table columns :
  recreate_accepted (sq_fault c) table columns →
  recreate_sqlite_table table columns c
  = (Ok tt, recreated c table columns, recreate_trace table columns).
Proof.
  intros (Hp & Hd & Hc). unfold recreate_sqlite_table, recreated, recreate_trace.
  unfold_run. unfold sqlite_run. cbn.
  rewrite Hp. cbn. rewrite Hd. cbn. rewrite Hc. cbn.
  rewrite lookup_delete_eq. cbn. by rewrite insert_delete_eq.
Qed.

Lemma total_rows_run conn table c :
  try_except (fetch_table_count conn table) (fun _ => mret 0) c
  = (Ok (counted_rows conn table), c, [EMysqlExecute (MyCount table)]).
Proof.
  unfold fetch_table_count, counted_rows. unfold_run. cbn.
  by destruct (mysql_count conn table).
Qed.

Lemma export_table_run TABLE_FIELDS conn table cb offset weight discovered c :
  mysql_show_columns conn table = Ok discovered →
  let columns := exported_columns TABLE_FIELDS table discovered in
  recreate_accepted (sq_fault c) table columns →
  export_table TABLE_FIELDS conn table cb offset weight c
  = let '(r, c2, tr2) :=
      export_body conn table cb offset weight (counted_rows conn table) columns
                  (recreated c table columns) in
    (r, c2, export_head table columns ++ tr2).
Proof.
  intros Hshow columns Hacc. unfold export_table.
  rewrite run_bind, total_rows_run.
  rewrite run_bind, (get_table_columns_run _ _ _ _ _ Hshow). fold columns.
  rewrite run_bind, recreate_sqlite_table_run by done.
  unfold export_body.
  match goal with
  | |- context [?m (recreated c table columns)] =>
    destruct (m (recreated c table columns)) as [[[] c2] tr2]
  end; reflexivity.
Qed.
Lemma counted_rows_ok conn table n :
  mysql_count conn table = Ok n → counted_rows conn table = n.
Proof. unfold counted_rows. by intros ->. Qed.

Lemma counted_rows_raise conn table e :
  mysql_count conn table = Raise e → counted_rows conn table = 0.
Proof. unfold counted_rows. by intros ->. Qed.

Lemma export_table_zero_run TABLE_FIELDS conn table offset weight discovered c :
  counted_rows conn table = 0 →
  mysql_show_columns conn table = Ok discovered →
  let columns := exported_columns TABLE_FIELDS table discovered in
  recreate_accepted (sq_fault c) table columns →
  export_table TABLE_FIELDS conn table ui offset weight c
  = (Ok tt, recreated c table columns,
     export_head table columns
       ++ [EProgress (offset + weight)%Q (table +:+ " (0 rows)")]).
Proof.
  intros Hzero Hshow columns Hacc.
  rewrite (export_table_run _ _ _ _ _ _ _ _ Hshow) by done.
  unfold export_body. rewrite Hzero. reflexivity.
Qed.

(** C4. For a table whose count is 0, [export_table] recreates the
    destination table (drop, then create, committed) and only then sends
    its one progress update, at [offset + weight] with the message
    "<table> (0 rows)"; the table is left empty in the destination. *)
Theorem zero_rows_table_spec (TABLE_FIELDS : gmap string (list string))
    (conn : mysql_conn) (table : string) (offset weight : Q)
    (discovered : list string) (c : sqlite_conn) :
  mysql_count conn table = Ok 0 →
  mysql_show_columns conn table = Ok discovered →
  let columns := exported_columns TABLE_FIELDS table discovered in
  recreate_accepted (sq_fault c) table columns →
  let r := export_table TABLE_FIELDS conn table ui offset weight c in
  outcome r = Ok tt
  ∧ trace r =
      [ EMysqlExecute (MyCount table); EMysqlExecute (MyShowColumns table);
        ESqliteExecute (SqPragma "foreign_keys = OFF"); ESqliteCommit;
        ESqliteExecute (SqDropTableIfExists table);
        ESqliteExecute (SqCreateTable table columns); ESqliteCommit;
        EProgress (offset + weight)%Q (table +:+ " (0 rows)") ]
  ∧ progress_updates (trace r) = [((offset + weight)%Q, table +:+ " (0 rows)")]
  ∧ sq_file (final r) !! table = Some (SqliteTable columns []).
Proof.
  intros Hcount Hshow columns Hacc r. unfold r.
  rewrite (export_table_zero_run _ _ _ _ _ _ _ (counted_rows_ok _ _ _ Hcount) Hshow)
    by done.
  unfold outcome, trace, final, recreated. cbn.
  by rewrite lookup_insert_eq.
Qed.

(** C7. When the count query raises, [export_table] goes on with a count
    of 0: it returns normally, the destination table is recreated, and the
    one progress update is "<table> (0 rows)" at [offset + weight]. *)
Theorem count_error_treated_as_zero (TABLE_FIELDS : gmap string (list string))
    (conn : mysql_conn) (table : string) (offset weight : Q)
    (discovered : list string) (e : exn) (c : sqlite_conn) :
  mysql_count conn table = Raise e →
  mysql_show_columns conn table = Ok discovered →
  let columns := exported_columns TABLE_FIELDS table discovered in
  recreate_accepted (sq_fault c) table columns →
  let r := export_table TABLE_FIELDS conn table ui offset weight c in
  outcome r = Ok tt
  ∧ trace r =
      [ EMysqlExecute (MyCount table); EMysqlExecute (MyShowColumns table);
        ESqliteExecute (SqPragma "foreign_keys = OFF"); ESqliteCommit;
        ESqliteExecute (SqDropTableIfExists table);
        ESqliteExecute (SqCreateTable table columns); ESqliteCommit;
        EProgress (offset + weight)%Q (table +:+ " (0 rows)") ]
  ∧ progress_updates (trace r) = [((offset + weight)%Q, table +:+ " (0 rows)")]
  ∧ sq_file (final r) !! table = Some (SqliteTable columns []).
Proof.
  intros Hcount Hshow columns Hacc r. unfold r.
  rewrite (export_table_zero_run _ _ _ _ _ _ _ (counted_rows_raise _ _ _ Hcount) Hshow)
    by done.
  unfold outcome, trace, final, recreated. cbn.
  by rewrite lookup_insert_eq.
Qed.

(** C8. When the count query raises for a source table that holds rows,
    the destination table is dropped and recreated empty all the same, no
    SELECT is sent and no row is inserted: what the destination held for
    that table before the run is gone, and the call returns normally. *)
Theorem count_error_loses_destination_rows
    (TABLE_FIELDS : gmap string (list string)) (conn : mysql_conn)
    (table : string) (offset weight : Q) (src : mysql_table)
    (old : sqlite_table) (e : exn) (c : sqlite_conn) :
  mysql_count conn table = Raise e →
  my_tables conn !! table = Some src →
  mt_rows src ≠ [] →
  my_fault conn (MyShowColumns table) = None →
  sq_file c !! table = Some old →
  st_rows old ≠ [] →
  let columns := exported_columns TABLE_FIELDS table (mt_columns src) in
  recreate_accepted (sq_fault c) table columns →
  let r := export_table TABLE_FIELDS conn table ui offset weight c in
  outcome r = Ok tt
  ∧ sq_file (final r) !! table = Some (SqliteTable columns [])
  ∧ sq_view (final r) !! table = Some (SqliteTable columns [])
  ∧ sq_file (final r) !! table ≠ Some old
  ∧ (∀ ev, ev ∈ trace r →
       match ev with
       | EMysqlExecute (MySelect _ _ _) => False
       | ESqliteExecutemany _ _ _ => False
       | ESqliteExecute (SqInsert _ _ _) => False
       | _ => True
       end).
Proof.
  intros Hcount Hsrc Hrows Hfault Hold Holdrows columns Hacc r.
  assert (Hshow : mysql_show_columns conn table = Ok (mt_columns src)).
  { unfold mysql_show_columns, mysql_table_of. by rewrite Hfault, Hsrc. }
  unfold r.
  rewrite (export_table_zero_run _ _ _ _ _ _ _ (counted_rows_raise _ _ _ Hcount) Hshow)
    by done.
  unfold outcome, trace, final, recreated. cbn.
  rewrite lookup_insert_eq. repeat split; try done.
  - intros [= <-]. by apply Holdrows.
  - intros ev Hev. unfold export_head, recreate_trace in Hev. cbn in Hev.
    repeat (apply elem_of_cons in Hev as [-> | Hev]; [done|]).
    by apply elem_of_nil in Hev.
Qed.
Lemma CHUNK_SIZE_pos : (0 < CHUNK_SIZE)%nat.
Proof. unfold CHUNK_SIZE. lia. Qed.

#[local] Opaque CHUNK_SIZE.

Lemma progress_updates_app tr1 tr2 :
  progress_updates (tr1 ++ tr2) = progress_updates tr1 ++ progress_updates tr2.
Proof. unfold progress_updates. apply omap_app. Qed.

Lemma progress_updates_events l : progress_updates (progress_events l) = l.
Proof.
  unfold progress_updates, progress_events.
  induction l as [|[f m] l IH]; [done|]. cbn. by rewrite IH.
Qed.

Lemma row_updates_0 table offset weight total k0 :
  row_updates table offset weight total k0 0 = [].
Proof. reflexivity. Qed.

Lemma row_updates_S table offset weight total k0 n :
  row_updates table offset weight total k0 (S n)
  = (if (k0 + 1) mod 50 =? 0
     then [row_update table offset weight total (k0 + 1)] else [])
    ++ row_updates table offset weight total (k0 + 1) n.
Proof.
  unfold row_updates. rewrite seqZ_cons by lia.
  replace (Z.pred (Z.of_nat (S n))) with (Z.of_nat n) by lia.
  replace (Z.succ (k0 + 1)) with (k0 + 1 + 1) by lia.
  rewrite filter_cons. destruct (Z.eqb_spec ((k0 + 1) mod 50) 0) as [He|Hne].
  - by rewrite decide_True.
  - by rewrite decide_False.
Qed.

Lemma row_updates_app table offset weight total k0 n1 n2 :
  row_updates table offset weight total k0 (n1 + n2)
  = row_updates table offset weight total k0 n1
    ++ row_updates table offset weight total (k0 + Z.of_nat n1) n2.
Proof.
  unfold row_updates. rewrite Nat2Z.inj_add, seqZ_app by lia.
  rewrite filter_app, fmap_app.
  by replace (k0 + 1 + Z.of_nat n1) with (k0 + Z.of_nat n1 + 1) by lia.
Qed.

Lemma elem_of_row_updates table offset weight total k0 n u :
  u ∈ row_updates table offset weight total k0 n ↔
  ∃ k, u = row_update table offset weight total k
       ∧ k0 < k <= k0 + Z.of_nat n ∧ k mod 50 = 0.
Proof.
  unfold row_updates. rewrite list_elem_of_fmap.
  setoid_rewrite list_elem_of_filter. setoid_rewrite elem_of_seqZ.
  split; intros (k & ? & ?); exists k; intuition lia.
Qed.

Lemma report_rows_run table offset weight total batch k0 c :
  report_rows ui table offset weight total batch k0 c
  = (Ok (k0 + Z.of_nat (length batch)), c,
     progress_events (row_updates table offset weight total k0 (length batch))).
Proof.
  revert k0. induction batch as [|r batch IH]; intros k0.
  - cbn. unfold_run. by rewrite Z.add_0_r.
  - cbn [report_rows length]. rewrite run_bind.
    rewrite row_updates_S. unfold progress_events. rewrite fmap_app.
    destruct ((k0 + 1) mod 50 =? 0).
    + cbn. rewrite IH. unfold progress_events. cbn.
      do 2 f_equal. f_equal. lia.
    + cbn. rewrite IH. unfold progress_events. cbn.
      do 2 f_equal. f_equal. lia.
Qed.
Lemma sqlite_run_many_keeps t cols batch c :
  sq_file (sqlite_run_many t cols batch c).2 = sq_file c
  ∧ sq_fault (sqlite_run_many t cols batch c).2 = sq_fault c.
Proof.
  revert c. induction batch as [|r batch IH]; intros c; [done|].
  cbn [sqlite_run_many].
  destruct (sqlite_run (SqInsert t cols r) c) as [[[]|e] c1] eqn:Hrun.
  - destruct (IH c1) as [-> ->]. unfold sqlite_run in Hrun.
    repeat case_match; simplify_eq; done.
  - unfold sqlite_run in Hrun. repeat case_match; simplify_eq; done.
Qed.

Lemma sqlite_run_many_ok t cols rows0 batch c :
  sq_view c !! t = Some (SqliteTable cols rows0) →
  Forall (fun r => length r = length cols) batch →
  Forall (accepted (sq_fault c) t cols) batch →
  batch ≠ [] →
  sqlite_run_many t cols batch c
  = (Ok tt, SqliteConn (sq_file c)
                       (<[t := SqliteTable cols (rows0 ++ batch)]> (sq_view c))
                       true (sq_fault c)).
Proof.
  intros Hview Hlen Hacc Hne. revert c rows0 Hview Hacc Hne.
  induction Hlen as [|r batch Hr Hlen IH]; intros c rows0 Hview Hacc Hne; [done|].
  apply Forall_cons in Hacc as [Har Hacc]. unfold accepted in Har.
  cbn [sqlite_run_many]. unfold sqlite_run. rewrite Har, Hview. cbn.
  rewrite bool_decide_eq_true_2 by done. cbn.
  rewrite Hr, Nat.eqb_refl. cbn.
  destruct batch as [|r' batch'].
  - reflexivity.
  - rewrite (IH _ (rows0 ++ [r])); cbn; try done.
    + by rewrite insert_insert_eq, <- app_assoc.
    + by rewrite lookup_insert_eq.
Qed.

Lemma sqlite_run_many_refused t cols rows0 batch e c :
  sq_view c !! t = Some (SqliteTable cols rows0) →
  Forall (fun r => length r = length cols) batch →
  batch_refused (sq_fault c) t cols batch e →
  (sqlite_run_many t cols batch c).1 = Raise e.
Proof.
  intros Hview Hlen (good & r & rest & -> & Hgood & Hr).
  revert c rows0 Hview Hgood Hr Hlen.
  induction good as [|g good IH]; intros c rows0 Hview Hgood Hr Hlen.
  - cbn. unfold sqlite_run. by rewrite Hr.
  - apply Forall_cons in Hgood as [Hg Hgood]. unfold accepted in Hg.
    cbn in Hlen. apply Forall_cons in Hlen as [Hlg Hlen].
    cbn [app sqlite_run_many]. unfold sqlite_run. rewrite Hg, Hview. cbn.
    rewrite bool_decide_eq_true_2 by done. cbn.
    rewrite Hlg, Nat.eqb_refl. cbn.
    apply (IH _ (rows0 ++ [g])); cbn; try done.
    by rewrite lookup_insert_eq.
Qed.

Lemma match_nonempty {A B} (l : list A) (a b : B) :
  l ≠ [] → match l with [] => a | _ :: _ => b end = b.
Proof. by destruct l. Qed.

Lemma export_pages_nil fuel table cols offset weight total k c :
  export_pages (S fuel) ui table cols offset weight total [] k c
  = (Ok tt, c, [EMysqlFetchmany CHUNK_SIZE []]).
Proof.
  cbn [export_pages]. unfold_run. cbn. by rewrite take_nil.
Qed.

Lemma export_pages_cons fuel table cols offset weight total cursor k c :
  cursor ≠ [] →
  let page := take CHUNK_SIZE cursor in
  let batch := convert_rows page in
  export_pages (S fuel) ui table cols offset weight total cursor k c
  = match sqlite_run_many table cols batch c with
    | (Raise e, c1) =>
      (Raise e, c1,
       [EMysqlFetchmany CHUNK_SIZE page; ESqliteExecutemany table cols batch])
    | (Ok _, c1) =>
      let '(r, c2, tr2) :=
        export_pages fuel ui table cols offset weight total
                     (drop CHUNK_SIZE cursor) (k + Z.of_nat (length page))
                     (sqlite_do_commit c1) in
      (r, c2,
       EMysqlFetchmany CHUNK_SIZE page
         :: ESqliteExecutemany table cols batch
         :: ESqliteCommit
         :: progress_events
              (row_updates table offset weight total k (length page)) ++ tr2)
    end.
Proof.
  intros Hne page batch.
  assert (Hpage : page ≠ []).
  { unfold page. destruct cursor; [done|].
    pose proof CHUNK_SIZE_pos. destruct CHUNK_SIZE; [lia|done]. }
  cbn [export_pages]. rewrite run_bind.
  change (fetchmany CHUNK_SIZE cursor c)
    with (Ok (page, drop CHUNK_SIZE cursor), c, [EMysqlFetchmany CHUNK_SIZE page]).
  cbn [fst snd]. rewrite match_nonempty by done.
  fold batch. rewrite run_bind. unfold sqlite_executemany at 1.
  destruct (sqlite_run_many table cols batch c) as [[[]|e] c1]; [|done].
  rewrite run_bind. unfold sqlite_commit at 1.
  rewrite run_bind, report_rows_run.
  unfold batch, convert_rows. rewrite length_fmap.
  destruct (export_pages fuel _ _ _ _ _ _ _ _ _) as [[r c2] tr2]. reflexivity.
Qed.
Lemma drop_chunk_shorter (cursor : list row) fuel :
  cursor ≠ [] → (length cursor < S fuel)%nat →
  (length (drop CHUNK_SIZE cursor) < fuel)%nat.
Proof.
  intros Hne Hlt. rewrite length_drop. pose proof CHUNK_SIZE_pos.
  destruct cursor; [done|]. cbn in *. lia.
Qed.

Lemma take_chunk_nonempty (cursor : list row) :
  cursor ≠ [] → take CHUNK_SIZE cursor ≠ [].
Proof.
  intros Hne. pose proof CHUNK_SIZE_pos.
  destruct cursor; [done|]. destruct CHUNK_SIZE; [lia|done].
Qed.

Lemma progress_updates_cons e tr :
  progress_updates (e :: tr)
  = match e with
    | EProgress f m => (f, m) :: progress_updates tr
    | _ => progress_updates tr
    end.
Proof. by destruct e. Qed.

Lemma export_pages_protocol fuel table cols offset weight total cursor k c :
  (length cursor < fuel)%nat →
  page_protocol table cols
    (trace (export_pages fuel ui table cols offset weight total cursor k c)).
Proof.
  revert cursor k c. induction fuel as [|fuel IH]; intros cursor k c Hlt; [lia|].
  destruct (decide (cursor = [])) as [->|Hne].
  - rewrite export_pages_nil. constructor.
  - rewrite export_pages_cons by done.
    destruct (sqlite_run_many _ _ _ c) as [[[]|e] c1].
    + specialize (IH (drop CHUNK_SIZE cursor)
                     (k + Z.of_nat (length (take CHUNK_SIZE cursor)))
                     (sqlite_do_commit c1) (drop_chunk_shorter _ _ Hne Hlt)).
      destruct (export_pages fuel _ _ _ _ _ _ _ _ _) as [[r c2] tr2].
      apply protocol_page; [by apply take_chunk_nonempty|done].
    + apply protocol_raise. by apply take_chunk_nonempty.
Qed.

Lemma export_pages_progress fuel table cols offset weight total cursor k c :
  (length cursor < fuel)%nat →
  let r := export_pages fuel ui table cols offset weight total cursor k c in
  ∃ n : nat,
    (n ≤ length cursor)%nat
    ∧ progress_updates (trace r) = row_updates table offset weight total k n
    ∧ (outcome r = Ok tt → n = length cursor).
Proof.
  revert cursor k c. induction fuel as [|fuel IH]; intros cursor k c Hlt; [lia|].
  destruct (decide (cursor = [])) as [->|Hne]; cbn zeta.
  - rewrite export_pages_nil. exists 0%nat. done.
  - rewrite export_pages_cons by done.
    destruct (sqlite_run_many _ _ _ c) as [[[]|e] c1].
    + destruct (IH (drop CHUNK_SIZE cursor)
                     (k + Z.of_nat (length (take CHUNK_SIZE cursor)))
                     (sqlite_do_commit c1) (drop_chunk_shorter _ _ Hne Hlt))
        as (n & Hn & Hup & Hok).
      destruct (export_pages fuel _ _ _ _ _ _ _ _ _) as [[r c2] tr2].
      unfold trace, outcome in *. cbn [fst snd] in *.
      exists (length (take CHUNK_SIZE cursor) + n)%nat.
      rewrite length_drop in Hn. rewrite length_take in *.
      split; [lia|]. split.
      * rewrite !progress_updates_cons.
        rewrite progress_updates_app, progress_updates_events, Hup.
        by rewrite row_updates_app.
      * intros Hr. rewrite (Hok Hr), length_drop. lia.
    + exists 0%nat. unfold trace, outcome. cbn [fst snd]. split; [lia|]. done.
Qed.
Lemma convert_rows_app l1 l2 :
  convert_rows (l1 ++ l2) = convert_rows l1 ++ convert_rows l2.
Proof. apply fmap_app. Qed.

Lemma convert_rows_take n l : convert_rows (take n l) = take n (convert_rows l).
Proof. unfold convert_rows. by rewrite fmap_take. Qed.

Lemma length_convert_row r : length (convert_row r) = length r.
Proof. apply length_fmap. Qed.

Lemma convert_rows_arity (cols : list string) l :
  Forall (fun r => length r = length cols) l →
  Forall (fun r => length r = length cols) (convert_rows l).
Proof.
  intros H. unfold convert_rows. apply Forall_fmap.
  eapply Forall_impl; [exact H|]. intros r Hr. cbn. by rewrite length_convert_row.
Qed.

Lemma settled_eta c :
  settled c → c = SqliteConn (sq_view c) (sq_view c) false (sq_fault c).
Proof. destruct c. intros [Hf Ht]. cbn in *. by subst. Qed.

(** Every page is accepted: the loop ends normally and the table holds
    the converted rows after those it had. *)
Lemma export_pages_ok fuel table cols offset weight total cursor k rows0 c :
  (length cursor < fuel)%nat →
  settled c →
  sq_view c !! table = Some (SqliteTable cols rows0) →
  Forall (fun r => length r = length cols) cursor →
  Forall (accepted (sq_fault c) table cols) (convert_rows cursor) →
  let r := export_pages fuel ui table cols offset weight total cursor k c in
  let m := <[table := SqliteTable cols (rows0 ++ convert_rows cursor)]> (sq_view c) in
  outcome r = Ok tt ∧ final r = SqliteConn m m false (sq_fault c).
Proof.
  revert cursor k rows0 c.
  induction fuel as [|fuel IH]; intros cursor k rows0 c Hlt Hset Hview Hlen Hacc;
    [lia|].
  destruct (decide (cursor = [])) as [->|Hne]; cbn zeta.
  - rewrite export_pages_nil. unfold outcome, final. cbn.
    split; [done|]. rewrite app_nil_r, insert_id by done. by apply settled_eta.
  - rewrite export_pages_cons by done.
    rewrite (sqlite_run_many_ok _ _ rows0); first last.
    { intros H%(f_equal length). unfold convert_rows in H.
      rewrite length_fmap in H. apply (take_chunk_nonempty _ Hne).
      by apply nil_length_inv. }
    { rewrite convert_rows_take. by apply Forall_take. }
    { apply convert_rows_arity. by apply Forall_take. }
    { done. }
    set (c1 := sqlite_do_commit _).
    destruct (IH (drop CHUNK_SIZE cursor)
                 (k + Z.of_nat (length (take CHUNK_SIZE cursor)))
                 (rows0 ++ convert_rows (take CHUNK_SIZE cursor)) c1)
      as [Hout Hfin].
    + by apply drop_chunk_shorter.
    + done.
    + unfold c1. cbn. by rewrite lookup_insert_eq.
    + by apply Forall_drop.
    + unfold c1. cbn. unfold convert_rows. rewrite fmap_drop. by apply Forall_drop.
    + destruct (export_pages fuel _ _ _ _ _ _ _ _ _) as [[r c2] tr2].
      unfold outcome, final in *. cbn [fst snd] in *. split; [done|].
      rewrite Hfin. unfold c1. cbn.
      rewrite insert_insert_eq, <- app_assoc, <- convert_rows_app, take_drop.
      done.
Qed.

(** The first [p] pages are accepted and the next one is refused: the
    loop raises, the table holds the rows of those [p] pages and nothing
    of the page in flight. *)
Lemma export_pages_refused p fuel table cols offset weight total cursor k rows0 e c :
  (length cursor < fuel)%nat →
  settled c →
  sq_view c !! table = Some (SqliteTable cols rows0) →
  Forall (fun r => length r = length cols) cursor →
  Forall (accepted (sq_fault c) table cols)
         (convert_rows (take (p * CHUNK_SIZE) cursor)) →
  batch_refused (sq_fault c) table cols
    (convert_rows (take CHUNK_SIZE (drop (p * CHUNK_SIZE) cursor))) e →
  let r := export_pages fuel ui table cols offset weight total cursor k c in
  outcome r = Raise e
  ∧ sq_file (final r)
    = <[table := SqliteTable cols
                   (rows0 ++ convert_rows (take (p * CHUNK_SIZE) cursor))]>
        (sq_view c)
  ∧ sq_fault (final r) = sq_fault c
  ∧ progress_updates (trace r)
    = row_updates table offset weight total k (p * CHUNK_SIZE).
Proof.
  revert fuel cursor k rows0 c.
  induction p as [|p IH]; intros fuel cursor k rows0 c Hlt Hset Hview Hlen Hacc Href.
  - cbn [Nat.mul] in *. rewrite drop_0 in Href. rewrite take_0.
    destruct fuel as [|fuel]; [lia|].
    assert (Hne : cursor ≠ []).
    { intros ->. destruct Href as (good & r & rest & Heq & _). by destruct good. }
    cbn zeta. rewrite export_pages_cons by done.
    pose proof (sqlite_run_many_refused table cols rows0
                  (convert_rows (take CHUNK_SIZE cursor)) e c Hview) as Hr.
    pose proof (sqlite_run_many_keeps table cols
                  (convert_rows (take CHUNK_SIZE cursor)) c) as [Hf Hq].
    destruct (sqlite_run_many _ _ _ c) as [res c1]. cbn in Hr, Hf, Hq.
    rewrite Hr; [|apply convert_rows_arity; by apply Forall_take|done].
    unfold outcome, final, trace. cbn [fst snd].
    rewrite Hf, Hq. destruct Hset as [-> _].
    rewrite app_nil_r, insert_id by done. done.
  - destruct fuel as [|fuel]; [lia|].
    assert (Hlong : (S p * CHUNK_SIZE < length cursor)%nat).
    { destruct Href as (good & r & rest & Heq & _).
      apply (f_equal length) in Heq. unfold convert_rows in Heq.
      rewrite length_fmap, length_take, length_drop, length_app in Heq.
      cbn [length] in Heq. lia. }
    assert (Hne : cursor ≠ []) by (intros ->; cbn [length] in Hlong; lia).
    replace (S p * CHUNK_SIZE)%nat with (CHUNK_SIZE + p * CHUNK_SIZE)%nat in * by lia.
    rewrite <- take_take_drop in Hacc. rewrite convert_rows_app in Hacc.
    apply Forall_app in Hacc as [Hacc1 Hacc2].
    rewrite <- drop_drop in Href.
    cbn zeta. rewrite export_pages_cons by done.
    rewrite (sqlite_run_many_ok _ _ rows0); first last.
    { intros H%(f_equal length). unfold convert_rows in H.
      rewrite length_fmap in H. apply (take_chunk_nonempty _ Hne).
      by apply nil_length_inv. }
    { done. }
    { apply convert_rows_arity. by apply Forall_take. }
    { done. }
    set (c1 := sqlite_do_commit _).
    destruct (IH fuel (drop CHUNK_SIZE cursor)
                 (k + Z.of_nat (length (take CHUNK_SIZE cursor)))
                 (rows0 ++ convert_rows (take CHUNK_SIZE cursor)) c1)
      as (Hout & Hfile & Hfault & Hup).
    + by apply drop_chunk_shorter.
    + done.
    + unfold c1. cbn. by rewrite lookup_insert_eq.
    + by apply Forall_drop.
    + done.
    + done.
    + destruct (export_pages fuel _ _ _ _ _ _ _ _ _) as [[r c2] tr2].
      unfold outcome, final, trace in *. cbn [fst snd] in *.
      split; [done|]. split; [|split; [done|]].
      * rewrite Hfile. unfold c1. cbn.
        rewrite insert_insert_eq, <- app_assoc, <- convert_rows_app.
        by rewrite take_take_drop.
      * rewrite !progress_updates_cons.
        rewrite progress_updates_app, progress_updates_events, Hup.
        rewrite row_updates_app. rewrite length_take_le by lia. done.
Qed.
Lemma project_row_length all_columns columns r r' :
  project_row all_columns columns r = Some r' → length r' = length columns.
Proof. unfold project_row. intros H. symmetry. by eapply length_mapM. Qed.

Lemma mysql_select_ok conn columns table w cursor :
  mysql_select conn columns table w = Ok cursor →
  ∃ tb, my_tables conn !! table = Some tb
        ∧ Forall2 (fun full r => project_row (mt_columns tb) columns full = Some r)
                  (mysql_matching conn tb w) cursor.
Proof.
  unfold mysql_select, mysql_table_of. intros H.
  destruct (my_fault conn _); [done|].
  destruct (my_tables conn !! table) as [tb|]; [|done].
  destruct (mapM _ _) as [rows|] eqn:Hm; [|done].
  exists tb. split; [done|]. apply mapM_Some in Hm. by simplify_eq.
Qed.

Lemma mysql_select_arity conn columns table w cursor :
  mysql_select conn columns table w = Ok cursor →
  Forall (fun r => length r = length columns) cursor.
Proof.
  intros (tb & _ & H)%mysql_select_ok.
  induction H as [|full r l k Hp _ IH]; constructor; [|done].
  by eapply project_row_length.
Qed.

Lemma mysql_count_ok conn table total :
  mysql_count conn table = Ok total →
  ∃ tb, my_tables conn !! table = Some tb ∧ total = Z.of_nat (length (mt_rows tb)).
Proof.
  unfold mysql_count, mysql_table_of. intros H.
  destruct (my_fault conn _); [done|].
  destruct (my_tables conn !! table) as [tb|]; [|done].
  exists tb. split; [done|]. by simplify_eq.
Qed.

Lemma length_mysql_matching conn tb w :
  (length (mysql_matching conn tb w) ≤ length (mt_rows tb))%nat.
Proof.
  unfold mysql_matching. destruct w; [|done]. apply List.filter_length_le.
Qed.

Lemma settled_recreated c table columns : settled (recreated c table columns).
Proof. done. Qed.

(** The table is exported in full when the engines go along. *)
Lemma export_table_ok TABLE_FIELDS conn table offset weight total discovered cursor c :
  mysql_count conn table = Ok total →
  total ≠ 0 →
  mysql_show_columns conn table = Ok discovered →
  let columns := exported_columns TABLE_FIELDS table discovered in
  recreate_accepted (sq_fault c) table columns →
  mysql_select conn columns table (TABLE_FILTERS !! table) = Ok cursor →
  Forall (accepted (sq_fault c) table columns) (convert_rows cursor) →
  let r := export_table TABLE_FIELDS conn table ui offset weight c in
  let m := <[table := SqliteTable columns (convert_rows cursor)]> (sq_view c) in
  outcome r = Ok tt
  ∧ final r = SqliteConn m m false (sq_fault c)
  ∧ progress_updates (trace r)
    = row_updates table offset weight total 0 (length cursor)
  ∧ ∃ pages, trace r = export_head table columns
               ++ EMysqlExecute (MySelect columns table (TABLE_FILTERS !! table))
               :: pages
             ∧ page_protocol table columns pages.
Proof.
  intros Hcount Hnz Hshow columns Hrec Hsel Hacc. cbn zeta.
  rewrite (export_table_run _ _ _ _ _ _ _ _ Hshow) by done. fold columns.
  unfold export_body. rewrite (counted_rows_ok _ _ _ Hcount).
  destruct (Z.eqb_spec total 0) as [|_]; [done|].
  rewrite run_bind. unfold mysql_execute_select at 1. unfold_run. rewrite Hsel.
  cbn [app].
  pose proof (export_pages_ok (S (length cursor)) table columns offset weight total
                cursor 0 [] (recreated c table columns)) as Hok.
  pose proof (export_pages_progress (S (length cursor)) table columns offset weight
                total cursor 0 (recreated c table columns)) as Hprog.
  pose proof (export_pages_protocol (S (length cursor)) table columns offset weight
                total cursor 0 (recreated c table columns)) as Hprot.
  cbn zeta in Hok, Hprog.
  destruct (export_pages _ _ _ _ _ _ _ _ _ _) as [[r c2] tr2].
  unfold outcome, final, trace in *. cbn [fst snd] in *.
  destruct Hok as [-> ->]; [lia|apply settled_recreated| |by eapply mysql_select_arity|done|].
  { unfold recreated. cbn. by rewrite lookup_insert_eq. }
  destruct Hprog as (n & _ & Hup & Hn); [lia|]. rewrite <- (Hn eq_refl) in *.
  split; [done|]. split.
  { unfold recreated. cbn. by rewrite insert_insert_eq. }
  split.
  { rewrite progress_updates_app, progress_updates_cons, Hup. done. }
  eexists. split; [done|]. apply Hprot. lia.
Qed.
Lemma progress_updates_nil : progress_updates [] = [].
Proof. reflexivity. Qed.

Ltac simpl_updates :=
  repeat (progress (cbn [app fst snd];
                    rewrite ?progress_updates_app, ?progress_updates_cons,
                      ?progress_updates_nil, ?progress_updates_events)).

Lemma recreate_no_progress table columns c :
  progress_updates (trace (recreate_sqlite_table table columns c)) = [].
Proof.
  unfold recreate_sqlite_table. unfold_run. unfold sqlite_run, trace. cbn.
  repeat case_match; simplify_eq; reflexivity.
Qed.

(** Whatever the engines do, the updates [export_table] sends for a table
    with a non-zero count are those of the counter values [1 .. n] that
    are multiples of 50, for some [n] bounded by the rows selected. *)
Lemma export_table_progress TABLE_FIELDS conn table offset weight c :
  counted_rows conn table ≠ 0 →
  ∃ n : nat,
    (∀ tb, my_tables conn !! table = Some tb →
           (n ≤ length (mysql_matching conn tb (TABLE_FILTERS !! table)))%nat)
    ∧ progress_updates
        (trace (export_table TABLE_FIELDS conn table ui offset weight c))
      = row_updates table offset weight (counted_rows conn table) 0 n.
Proof.
  intros Hnz. unfold export_table.
  rewrite run_bind, total_rows_run, run_bind.
  destruct (mysql_show_columns conn table) as [discovered|e] eqn:Hshow.
  2:{ rewrite (get_table_columns_raise _ _ _ _ _ Hshow).
      exists 0%nat. split; [intros; lia|done]. }
  rewrite (get_table_columns_run _ _ _ _ _ Hshow), run_bind.
  set (columns := exported_columns TABLE_FIELDS table discovered).
  pose proof (recreate_no_progress table columns c) as Hrec.
  destruct (recreate_sqlite_table table columns c) as [[[[]|e] c1] tr1].
  2:{ exists 0%nat. split; [intros; lia|]. unfold trace in *. cbn [fst snd] in *.
      simpl_updates. by rewrite Hrec. }
  destruct (Z.eqb_spec (counted_rows conn table) 0) as [|_]; [done|].
  rewrite run_bind. unfold mysql_execute_select at 1. unfold_run.
  destruct (mysql_select conn columns table (TABLE_FILTERS !! table))
    as [cursor|e] eqn:Hsel.
  2:{ exists 0%nat. split; [intros; lia|]. unfold trace in *. cbn [fst snd app] in *.
      simpl_updates. by rewrite Hrec. }
  cbn [app].
  pose proof (export_pages_progress (S (length cursor)) table columns offset weight
                (counted_rows conn table) cursor 0 c1) as Hprog.
  cbn zeta in Hprog.
  destruct (export_pages _ _ _ _ _ _ _ _ _ _) as [[r c2] tr2].
  destruct Hprog as (n & Hn & Hup & _); [lia|].
  exists n. split.
  - intros tb Htb. apply mysql_select_ok in Hsel as (tb' & Htb' & Hall).
    simplify_eq. apply Forall2_length in Hall. lia.
  - unfold trace in *. cbn [fst snd] in *.
    simpl_updates. by rewrite Hrec, Hup.
Qed.
Lemma fraction_below (offset weight : Q) (k total : Z) :
  (0 < weight)%Q → k < total → 0 < total →
  (offset + weight * (inject_Z k / inject_Z total) < offset + weight)%Q.
Proof.
  intros Hw Hk Ht. apply Qplus_lt_r.
  apply Qlt_le_trans with (weight * 1)%Q.
  - apply Qmult_lt_l; [done|]. apply Qlt_shift_div_r.
    + change 0%Q with (inject_Z 0). by rewrite <- Zlt_Qlt.
    + rewrite Qmult_1_l. by rewrite <- Zlt_Qlt.
  - rewrite Qmult_1_r. apply Qle_refl.
Qed.



Import RdsExportUI.

Lemma export_loop_cons TABLE_FIELDS conn w t rest k c :
  export_loop TABLE_FIELDS conn w (t :: rest) k c
  = match export_table TABLE_FIELDS conn t ui (w * inject_Z k)%Q w c with
    | (Ok _, c1, tr1) =>
      let '(r, c2, tr2) := export_loop TABLE_FIELDS conn w rest (k + 1) c1 in
      (r, c2, EProgress (w * inject_Z k)%Q (preparing t) :: tr1 ++ tr2)
    | (Raise e, c1, tr1) =>
      (Raise e, c1, EProgress (w * inject_Z k)%Q (preparing t) :: tr1)
    end.
Proof.
  cbn [export_loop]. rewrite run_bind. unfold progress_callback at 1, emit at 1.
  rewrite run_bind. fold ui.
  destruct (export_table _ _ _ _ _ _ c) as [[[[]|e] c1] tr1]; [|done].
  by destruct (export_loop _ _ _ _ _ c1) as [[r c2] tr2].
Qed.

Lemma export_loop_app TABLE_FIELDS conn w pre l k c :
  export_loop TABLE_FIELDS conn w (pre ++ l) k c
  = match export_loop TABLE_FIELDS conn w pre k c with
    | (Ok _, c1, tr1) =>
      let '(r, c2, tr2) :=
        export_loop TABLE_FIELDS conn w l (k + Z.of_nat (length pre)) c1 in
      (r, c2, tr1 ++ tr2)
    | (Raise e, c1, tr1) => (Raise e, c1, tr1)
    end.
Proof.
  revert k c. induction pre as [|t pre IH]; intros k c.
  - cbn. unfold_run. rewrite Z.add_0_r.
    by destruct (export_loop _ _ _ _ _ c) as [[r c2] tr2].
  - cbn [app]. rewrite !export_loop_cons.
    destruct (export_table _ _ _ _ _ _ c) as [[[[]|e] c1] tr1]; [|done].
    rewrite IH.
    destruct (export_loop _ _ _ pre _ c1) as [[[[]|e] c2] tr2]; [|done].
    replace (k + 1 + Z.of_nat (length pre)) with (k + Z.of_nat (length (t :: pre)))
      by (cbn [length]; lia).
    destruct (export_loop _ _ _ l _ c2) as [[r c3] tr3].
    by rewrite app_comm_cons, app_assoc.
Qed.

Lemma export_worker_run TABLE_FIELDS selected conn path c :
  selected ≠ [] →
  opening_accepted (sq_fault c) →
  _export_worker TABLE_FIELDS selected (Ok conn) None path c
  = match export_loop TABLE_FIELDS conn (per_table_weight selected) selected 0 c with
    | (Ok _, c1, tr) =>
      (Ok tt, sqlite_do_close (sqlite_do_commit c1),
       opening_trace ++ tr ++ completion_trace path)
    | (Raise e, c1, tr) =>
      (Ok tt, sqlite_do_close c1, opening_trace ++ tr ++ failure_trace e)
    end.
Proof.
  intros Hne [Hwal Hsync]. unfold _export_worker.
  destruct selected as [|t0 rest]; [done|].
  set (selected := t0 :: rest).
  unfold progress_callback. unfold_run. unfold sqlite_run.
  cbn -[export_loop per_table_weight]. rewrite Hwal.
  cbn -[export_loop per_table_weight]. rewrite Hsync.
  cbn -[export_loop per_table_weight].
  destruct (export_loop _ _ _ _ _ c) as [[[[]|e] c1] tr].
  - unfold opening_trace, completion_trace. cbn [app].
    rewrite <- !app_assoc. reflexivity.
  - unfold opening_trace, failure_trace. cbn [app].
    rewrite <- !app_assoc. reflexivity.
Qed.
Lemma recreate_settled table columns c :
  outcome (recreate_sqlite_table table columns c) = Ok tt →
  settled (final (recreate_sqlite_table table columns c)).
Proof.
  unfold recreate_sqlite_table. unfold_run. unfold sqlite_run, outcome, final. cbn.
  repeat case_match; simplify_eq; cbn; done.
Qed.

Lemma export_pages_settled fuel table cols offset weight total cursor k c :
  (length cursor < fuel)%nat →
  settled c →
  let r := export_pages fuel ui table cols offset weight total cursor k c in
  outcome r = Ok tt → settled (final r).
Proof.
  revert cursor k c. induction fuel as [|fuel IH]; intros cursor k c Hlt Hset; [lia|].
  destruct (decide (cursor = [])) as [->|Hne]; cbn zeta.
  - by rewrite export_pages_nil.
  - rewrite export_pages_cons by done.
    destruct (sqlite_run_many _ _ _ c) as [[[]|e] c1]; [|done].
    specialize (IH (drop CHUNK_SIZE cursor)
                   (k + Z.of_nat (length (take CHUNK_SIZE cursor)))
                   (sqlite_do_commit c1) (drop_chunk_shorter _ _ Hne Hlt)).
    cbn zeta in IH.
    destruct (export_pages fuel _ _ _ _ _ _ _ _ _) as [[r c2] tr2].
    unfold outcome, final in *. cbn [fst snd] in *. by apply IH.
Qed.

Lemma export_table_settled TABLE_FIELDS conn table offset weight c :
  let r := export_table TABLE_FIELDS conn table ui offset weight c in
  outcome r = Ok tt → settled (final r).
Proof.
  cbn zeta. unfold export_table.
  rewrite run_bind, total_rows_run, run_bind.
  destruct (mysql_show_columns conn table) as [discovered|e] eqn:Hshow.
  2:{ by rewrite (get_table_columns_raise _ _ _ _ _ Hshow). }
  rewrite (get_table_columns_run _ _ _ _ _ Hshow), run_bind.
  set (columns := exported_columns TABLE_FIELDS table discovered).
  pose proof (recreate_settled table columns c) as Hrec.
  destruct (recreate_sqlite_table table columns c) as [[[[]|e] c1] tr1]; [|done].
  specialize (Hrec eq_refl). unfold final in Hrec. cbn [fst snd] in Hrec.
  destruct (counted_rows conn table =? 0).
  { done. }
  rewrite run_bind. unfold mysql_execute_select at 1. unfold_run.
  destruct (mysql_select conn columns table (TABLE_FILTERS !! table))
    as [cursor|e] eqn:Hsel; [|done].
  pose proof (export_pages_settled (S (length cursor)) table columns offset weight
                (counted_rows conn table) cursor 0 c1) as Hpages.
  cbn zeta in Hpages.
  destruct (export_pages _ _ _ _ _ _ _ _ _ _) as [[r c2] tr2].
  unfold outcome, final in *. cbn [fst snd] in *. apply Hpages; [lia|done].
Qed.

Lemma export_loop_settled TABLE_FIELDS conn w tables k c :
  settled c →
  let r := RdsExportUI.export_loop TABLE_FIELDS conn w tables k c in
  outcome r = Ok tt → settled (final r).
Proof.
  revert k c. induction tables as [|t tables IH]; intros k c Hset; [done|].
  cbn zeta. rewrite export_loop_cons.
  pose proof (export_table_settled TABLE_FIELDS conn t (w * inject_Z k)%Q w c) as Ht.
  cbn zeta in Ht.
  destruct (export_table _ _ _ _ _ _ c) as [[[[]|e] c1] tr1]; [|done].
  specialize (IH (k + 1) c1 (Ht eq_refl)). cbn zeta in IH.
  by destruct (RdsExportUI.export_loop _ _ _ _ _ c1) as [[r c2] tr2].
Qed.
Lemma recreate_fault table columns c :
  sq_fault (final (recreate_sqlite_table table columns c)) = sq_fault c.
Proof.
  unfold recreate_sqlite_table. unfold_run. unfold sqlite_run, final. cbn.
  repeat case_match; simplify_eq; cbn; done.
Qed.

Lemma export_pages_fault fuel table cols offset weight total cursor k c :
  (length cursor < fuel)%nat →
  sq_fault (final (export_pages fuel ui table cols offset weight total cursor k c))
  = sq_fault c.
Proof.
  revert cursor k c. induction fuel as [|fuel IH]; intros cursor k c Hlt; [lia|].
  destruct (decide (cursor = [])) as [->|Hne].
  - by rewrite export_pages_nil.
  - rewrite export_pages_cons by done.
    pose proof (sqlite_run_many_keeps table cols
                  (convert_rows (take CHUNK_SIZE cursor)) c) as [_ Hq].
    destruct (sqlite_run_many _ _ _ c) as [[[]|e] c1]; [|done].
    specialize (IH (drop CHUNK_SIZE cursor)
                   (k + Z.of_nat (length (take CHUNK_SIZE cursor)))
                   (sqlite_do_commit c1) (drop_chunk_shorter _ _ Hne Hlt)).
    destruct (export_pages fuel _ _ _ _ _ _ _ _ _) as [[r c2] tr2].
    unfold final in *. cbn [fst snd] in *. by rewrite IH.
Qed.

Lemma export_table_fault TABLE_FIELDS conn table offset weight c :
  sq_fault (final (export_table TABLE_FIELDS conn table ui offset weight c))
  = sq_fault c.
Proof.
  unfold export_table.
  rewrite run_bind, total_rows_run, run_bind.
  destruct (mysql_show_columns conn table) as [discovered|e] eqn:Hshow.
  2:{ by rewrite (get_table_columns_raise _ _ _ _ _ Hshow). }
  rewrite (get_table_columns_run _ _ _ _ _ Hshow), run_bind.
  set (columns := exported_columns TABLE_FIELDS table discovered).
  pose proof (recreate_fault table columns c) as Hrec.
  destruct (recreate_sqlite_table table columns c) as [[[[]|e] c1] tr1]; [|done].
  unfold final in Hrec. cbn [fst snd] in Hrec.
  destruct (counted_rows conn table =? 0).
  { done. }
  rewrite run_bind. unfold mysql_execute_select at 1. unfold_run.
  destruct (mysql_select conn columns table (TABLE_FILTERS !! table))
    as [cursor|e] eqn:Hsel; [|done].
  pose proof (export_pages_fault (S (length cursor)) table columns offset weight
                (counted_rows conn table) cursor 0 c1) as Hpages.
  destruct (export_pages _ _ _ _ _ _ _ _ _ _) as [[r c2] tr2].
  unfold final in *. cbn [fst snd] in *. rewrite Hpages by lia. done.
Qed.

Lemma export_loop_fault TABLE_FIELDS conn w tables k c :
  sq_fault (final (RdsExportUI.export_loop TABLE_FIELDS conn w tables k c))
  = sq_fault c.
Proof.
  revert k c. induction tables as [|t tables IH]; intros k c; [done|].
  rewrite export_loop_cons.
  pose proof (export_table_fault TABLE_FIELDS conn t (w * inject_Z k)%Q w c) as Ht.
  destruct (export_table _ _ _ _ _ _ c) as [[[[]|e] c1] tr1]; [|done].
  specialize (IH (k + 1) c1).
  destruct (RdsExportUI.export_loop _ _ _ _ _ c1) as [[r c2] tr2].
  unfold final in *. cbn [fst snd] in *. by rewrite IH.
Qed.

(** A page is refused after [p] pages went through: the export raises
    with the rows of those pages committed. *)
Lemma export_table_refused TABLE_FIELDS conn table offset weight total discovered
    cursor p e c :
  mysql_count conn table = Ok total →
  total ≠ 0 →
  mysql_show_columns conn table = Ok discovered →
  let columns := exported_columns TABLE_FIELDS table discovered in
  recreate_accepted (sq_fault c) table columns →
  mysql_select conn columns table (TABLE_FILTERS !! table) = Ok cursor →
  Forall (accepted (sq_fault c) table columns)
         (convert_rows (take (p * CHUNK_SIZE) cursor)) →
  batch_refused (sq_fault c) table columns
    (convert_rows (take CHUNK_SIZE (drop (p * CHUNK_SIZE) cursor))) e →
  let r := export_table TABLE_FIELDS conn table ui offset weight c in
  outcome r = Raise e
  ∧ sq_file (final r)
    = <[table := SqliteTable columns (convert_rows (take (p * CHUNK_SIZE) cursor))]>
        (sq_view c)
  ∧ progress_updates (trace r)
    = row_updates table offset weight total 0 (p * CHUNK_SIZE)
  ∧ ∃ pages, trace r = export_head table columns
               ++ EMysqlExecute (MySelect columns table (TABLE_FILTERS !! table))
               :: pages
             ∧ page_protocol table columns pages.
Proof.
  intros Hcount Hnz Hshow columns Hrec Hsel Hacc Href. cbn zeta.
  rewrite (export_table_run _ _ _ _ _ _ _ _ Hshow) by done. fold columns.
  unfold export_body. rewrite (counted_rows_ok _ _ _ Hcount).
  destruct (Z.eqb_spec total 0) as [|_]; [done|].
  rewrite run_bind. unfold mysql_execute_select at 1. unfold_run. rewrite Hsel.
  cbn [app].
  pose proof (export_pages_refused p (S (length cursor)) table columns offset weight
                total cursor 0 [] e (recreated c table columns)) as Href'.
  pose proof (export_pages_protocol (S (length cursor)) table columns offset weight
                total cursor 0 (recreated c table columns)) as Hprot.
  cbn zeta in Href'.
  destruct (export_pages _ _ _ _ _ _ _ _ _ _) as [[r c2] tr2].
  unfold outcome, final, trace in *. cbn [fst snd] in *.
  destruct Href' as (-> & -> & _ & Hup);
    [lia|apply settled_recreated| |by eapply mysql_select_arity|done|done|].
  { unfold recreated. cbn. by rewrite lookup_insert_eq. }
  split; [done|]. split.
  { unfold recreated. cbn. by rewrite insert_insert_eq. }
  split.
  { simpl_updates. by rewrite Hup. }
  eexists. split; [done|]. apply Hprot. lia.
Qed.
(** C1. In the loop over the pages every page fetched is written by one
    [executemany] and committed before the next fetch.  When the write
    of a page raises after [p] pages of a table went through, the
    destination file keeps the rows of those [p] pages (none of the page
    in flight) and everything the tables exported before had left in it;
    the worker closes the connections, sends the update
    "Export failed: <error>", shows the error in a dialog, and the trace
    holds nothing for the tables that come later in the list. *)
Theorem page_write_failure_spec (TABLE_FIELDS : gmap string (list string))
    (conn : mysql_conn) (done_tables : list string) (t : string)
    (later : list string) (path : string)
    (file : gmap string sqlite_table) (fault : sqlite_stmt → option exn)
    (total : Z) (discovered : list string) (cursor : list row) (p : nat)
    (e : exn) (c1 : sqlite_conn) (tr_done : list event) :
  let selected := done_tables ++ t :: later in
  let w := RdsExportUI.per_table_weight selected in
  let offset := (w * inject_Z (Z.of_nat (length done_tables)))%Q in
  let columns := exported_columns TABLE_FIELDS t discovered in
  opening_accepted fault →
  RdsExportUI.export_loop TABLE_FIELDS conn w done_tables 0 (sqlite_opened file fault)
    = (Ok tt, c1, tr_done) →
  mysql_count conn t = Ok total →
  total ≠ 0 →
  mysql_show_columns conn t = Ok discovered →
  recreate_accepted fault t columns →
  mysql_select conn columns t (TABLE_FILTERS !! t) = Ok cursor →
  Forall (accepted fault t columns) (convert_rows (take (p * CHUNK_SIZE) cursor)) →
  batch_refused fault t columns
    (convert_rows (take CHUNK_SIZE (drop (p * CHUNK_SIZE) cursor))) e →
  let r := RdsExportUI._export_worker TABLE_FIELDS selected (Ok conn) None path
             (sqlite_opened file fault) in
  (∀ rows k c,
     page_protocol t columns
       (trace (export_pages (S (length rows)) ui t columns offset w total rows k c)))
  ∧ outcome (export_table TABLE_FIELDS conn t ui offset w c1) = Raise e
  ∧ outcome r = Ok tt
  ∧ sq_file (final r) !! t
    = Some (SqliteTable columns (convert_rows (take (p * CHUNK_SIZE) cursor)))
  ∧ (∀ t', t' ≠ t → sq_file (final r) !! t' = sq_file c1 !! t')
  ∧ ∃ pages,
      page_protocol t columns pages
      ∧ trace r
        = opening_trace ++ tr_done
            ++ EProgress offset ("Preparing to export " +:+ t +:+ "...")
            :: export_head t columns
            ++ EMysqlExecute (MySelect columns t (TABLE_FILTERS !! t))
            :: pages
            ++ [ ESqliteClose; EMysqlClose;
                 EProgress 0 ("Export failed: " +:+ e);
                 EShowError "Export failed"
                            ("An error occurred during export:" +:+ nl +:+ e);
                 ERunButton true; ERefreshStatus ].
Proof.
  intros selected w offset columns Hopen Hdone Hcount Hnz Hshow Hrec Hsel Hacc Href r.
  split.
  { intros rows k c. apply export_pages_protocol. lia. }
  pose proof (export_loop_fault TABLE_FIELDS conn w done_tables 0
                (sqlite_opened file fault)) as Hfault.
  pose proof (export_loop_settled TABLE_FIELDS conn w done_tables 0
                (sqlite_opened file fault)) as Hsettled.
  cbn zeta in Hsettled. rewrite Hdone in Hfault, Hsettled.
  unfold final, outcome in Hfault, Hsettled. cbn in Hfault, Hsettled.
  specialize (Hsettled (conj eq_refl eq_refl) eq_refl).
  rewrite <- Hfault in Hrec, Hacc, Href.
  pose proof (export_table_refused TABLE_FIELDS conn t offset w total discovered
                cursor p e c1 Hcount Hnz Hshow Hrec Hsel Hacc Href)
    as (Hout & Hfile & _ & pages & Htr & Hprot).
  fold columns in Hfile, Htr, Hprot.
  assert (Hloop :
    RdsExportUI.export_loop TABLE_FIELDS conn w selected 0 (sqlite_opened file fault)
    = (Raise e,
       final (export_table TABLE_FIELDS conn t ui offset w c1),
       tr_done ++ EProgress offset (preparing t)
         :: trace (export_table TABLE_FIELDS conn t ui offset w c1))).
  { unfold selected. rewrite export_loop_app, Hdone, export_loop_cons.
    rewrite Z.add_0_l. fold offset.
    destruct (export_table _ _ _ _ _ _ c1) as [[rt ct] trt].
    unfold outcome in Hout. cbn in Hout. by subst rt. }
  split; [done|].
  unfold r. rewrite export_worker_run; [|by destruct done_tables|done].
  fold w. rewrite Hloop. unfold outcome, final, trace. cbn [fst snd].
  split; [done|]. cbn [sqlite_do_close sq_file].
  unfold final in Hfile. rewrite Hfile. split; [by rewrite lookup_insert_eq|]. split.
  { intros t' Ht'. rewrite lookup_insert_ne by done. by destruct Hsettled as [-> _]. }
  exists pages. split; [done|].
  unfold trace in Htr. rewrite Htr.
  unfold failure_trace, preparing. rewrite <- !app_assoc. cbn [app].
  rewrite <- !app_assoc. reflexivity.
Qed.
Lemma fraction_full_iff (offset weight : Q) (k total : Z) :
  (0 < weight)%Q → 0 < total →
  (offset + weight * (inject_Z k / inject_Z total) == offset + weight)%Q ↔ k = total.
Proof.
  intros Hw Ht.
  assert (HT : ¬ (inject_Z total == 0)%Q).
  { change 0%Q with (inject_Z 0). rewrite inject_Z_injective. lia. }
  split.
  - intros H. apply Qplus_inj_l in H.
    assert (H1 : (weight * (inject_Z k / inject_Z total) == weight * 1)%Q)
      by (rewrite H; ring).
    apply Qmult_inj_l in H1; [|intros Hz; rewrite Hz in Hw; by apply Qlt_irrefl in Hw].
    apply inject_Z_injective.
    rewrite <- (Qmult_div_r (inject_Z k) (inject_Z total)) by done.
    rewrite H1. ring.
  - intros ->. apply Qplus_inj_l.
    setoid_replace (inject_Z total / inject_Z total)%Q with 1%Q
      using relation Qeq; [ring|].
    field. done.
Qed.






Example decode_two_bytes : decode_replace [xc3; xa9] = [0xE9].
Proof. reflexivity. Qed.

Example decode_three_bytes : decode_replace [xe2; x82; xac] = [0x20AC].
Proof. reflexivity. Qed.

Example decode_four_bytes : decode_replace [xf0; x9f; x98; x80] = [0x1F600].
Proof. reflexivity. Qed.

Example decode_surrogate : decode_replace [xed; xa0; x80] = [0xFFFD; 0xFFFD; 0xFFFD].
Proof. reflexivity. Qed.

Example decode_truncated : decode_replace [x41; xe2; x82] = [0x41; 0xFFFD].
Proof. reflexivity. Qed.

Example decode_wrong_continuation :
  decode_replace [xf0; x9f; x98; x28] = [0xFFFD; 0x28].
Proof. reflexivity. Qed.

Example decode_strict_raises : decode_strict [x41; xff] = Raise "UnicodeDecodeError".
Proof. reflexivity. Qed.





(** C2 on the sample server: the allow-list names a column the table
    does not have and repeats one. *)
Lemma resolve_export_columns_witness :
  ∃ cols,
    get_table_columns sample_fields sample_mysql "contacts"
                      (sqlite_opened ∅ no_fault)
    = (Ok cols, sqlite_opened ∅ no_fault, [EMysqlExecute (MyShowColumns "contacts")])
    ∧ cols `sublist_of` ["email"; "ghost"; "id"; "email"]
    ∧ (∀ x, x ∈ cols ↔ x ∈ ["email"; "ghost"; "id"; "email"]
                        ∧ x ∈ ["id"; "name"; "email"])
    ∧ (∀ l, l `sublist_of` ["email"; "ghost"; "id"; "email"] →
            Forall (λ x, x ∈ ["id"; "name"; "email"]) l → l `sublist_of` cols).
Proof.
  apply (resolve_export_columns_spec sample_fields sample_mysql "contacts"
           ["id"; "name"; "email"] (sqlite_opened ∅ no_fault)).
  - vm_compute. reflexivity.
  - vm_compute. reflexivity.
Defined.


(** C4 on the empty table of the sample server. *)
Lemma zero_rows_table_witness :
  progress_updates
    (trace (export_table ∅ sample_mysql "contact_targets" ui (1 # 3) (1 # 3)
                         (sqlite_opened sample_destination no_fault)))
  = [(((1 # 3) + (1 # 3))%Q, "contact_targets (0 rows)")].
Proof.
  apply (zero_rows_table_spec ∅ sample_mysql "contact_targets" (1 # 3) (1 # 3)
           ["id"; "target"] (sqlite_opened sample_destination no_fault)).
  - vm_compute. reflexivity.
  - vm_compute. reflexivity.
  - repeat split; vm_compute; reflexivity.
Defined.

(** C7 on the sample server whose count times out. *)
Lemma count_error_treated_as_zero_witness :
  outcome (export_table ∅ sample_mysql_count_fault "contacts" ui 0 1
                        (sqlite_opened sample_destination no_fault))
  = Ok tt.
Proof.
  apply (count_error_treated_as_zero ∅ sample_mysql_count_fault "contacts" 0 1
           ["id"; "name"; "email"] "Lock wait timeout exceeded"
           (sqlite_opened sample_destination no_fault)).
  - vm_compute. reflexivity.
  - vm_compute. reflexivity.
  - repeat split; vm_compute; reflexivity.
Defined.

(** C8: the earlier export of [contacts] is gone from the destination. *)
Lemma count_error_loses_destination_rows_witness :
  sq_file (final (export_table ∅ sample_mysql_count_fault "contacts" ui 0 1
                               (sqlite_opened sample_destination no_fault)))
    !! "contacts"
  = Some (SqliteTable ["id"; "name"; "email"] []).
Proof.
  destruct (count_error_loses_destination_rows ∅ sample_mysql_count_fault "contacts"
           0 1
           (MysqlTable ["id"; "name"; "email"]
              [ [VInt 1; VBytes [x41; xff]; VStr [0x61]];
                [VInt 2; VNone; VByteArray [xc3; xa9]];
                [VInt 3; VStr [0x42]; VNone] ])
           (SqliteTable ["id"; "name"] [[VInt 1; VStr [0x41]]])
           "Lock wait timeout exceeded"
           (sqlite_opened sample_destination no_fault))
    as (_ & Hfile & _).
  - vm_compute. reflexivity.
  - vm_compute. reflexivity.
  - discriminate.
  - vm_compute. reflexivity.
  - vm_compute. reflexivity.
  - discriminate.
  - repeat split; vm_compute; reflexivity.
  - exact Hfile.
Defined.


(** C1 on a table of 1002 rows whose second page holds a value the
    engine refuses: the first page stays in the file. *)
Lemma page_write_failure_witness :
  sq_file
    (final (RdsExportUI._export_worker ∅
              ["contacts"; "contact_serial_numbers"; "remove_contacts"]
              (Ok sample_mysql) None "out.db" (sqlite_opened ∅ sample_fault)))
    !! "contact_serial_numbers"
  = Some (SqliteTable ["serial"] (numbered_rows 1000)).
Proof.
  edestruct (page_write_failure_spec ∅ sample_mysql ["contacts"]
               "contact_serial_numbers" ["remove_contacts"] "out.db" ∅ sample_fault
               1002 ["serial"]
               (numbered_rows 1000 ++ [[VOther "Decimal('1.5')"]; [VInt 1002]]) 1
               "Error binding parameter 1: type 'decimal.Decimal' is not supported")
    as (_ & _ & _ & Hfile & _).
  - split; reflexivity.
  - vm_compute. reflexivity.
  - vm_compute. reflexivity.
  - discriminate.
  - vm_compute. reflexivity.
  - repeat split; vm_compute; reflexivity.
  - vm_compute. reflexivity.
  - refine (bool_decide_unpack _ _). vm_compute. exact I.
  - exists [], [VOther "Decimal('1.5')"], [[VInt 1002]].
    split; [vm_compute; reflexivity|]. split; [constructor|reflexivity].
  - etrans; [exact Hfile|]. vm_compute. reflexivity.
Defined.



(** * Further properties of the exporter *)

(** ** [export_table]: errors before and after the table is recreated *)

(** X1. When SHOW COLUMNS raises (a table that does not exist at the
    source, for one), [export_table] raises that error although the error
    of the count was swallowed just before, and nothing at all is sent to
    the destination: the connection is as it was. *)
Theorem export_table_columns_error (TABLE_FIELDS : gmap string (list string))
    (conn : mysql_conn) (table : string) (cb : option callback)
    (offset weight : Q) (e : exn) (c : sqlite_conn) :
  mysql_show_columns conn table = Raise e →
  export_table TABLE_FIELDS conn table cb offset weight c
  = (Raise e, c,
     [EMysqlExecute (MyCount table); EMysqlExecute (MyShowColumns table)]).
Proof.
  intros Hshow. unfold export_table.
  rewrite run_bind, total_rows_run, run_bind.
  by rewrite (get_table_columns_raise _ _ _ _ _ Hshow).
Qed.

(** X1 on a table the sample server does not have, with an earlier
    export of [contacts] in the destination. *)
Lemma export_table_columns_error_witness :
  export_table ∅ sample_mysql "accounts" ui 0 1
               (sqlite_opened sample_destination no_fault)
  = (Raise "Table 'accounts' doesn't exist",
     sqlite_opened sample_destination no_fault,
     [EMysqlExecute (MyCount "accounts"); EMysqlExecute (MyShowColumns "accounts")]).
Proof.
  apply (export_table_columns_error ∅ sample_mysql "accounts" ui 0 1).
  vm_compute. reflexivity.
Defined.

(** X2. [recreate_sqlite_table] is not atomic: when the engine takes the
    DROP and refuses the CREATE (no column left to export, say), the call
    raises and the table is gone from the destination file, with what it
    held; what was pending on the connection has been committed, and the
    other tables are as the connection saw them. *)
Theorem recreate_create_refused (c : sqlite_conn) (table : string)
    (columns : list string) (e : exn) :
  sq_fault c (SqPragma "foreign_keys = OFF") = None →
  sq_fault c (SqDropTableIfExists table) = None →
  sq_fault c (SqCreateTable table columns) = Some e →
  let r := recreate_sqlite_table table columns c in
  outcome r = Raise e
  ∧ sq_file (final r) = delete table (sq_view c)
  ∧ sq_view (final r) = delete table (sq_view c)
  ∧ sq_file (final r) !! table = None.
Proof.
  intros Hp Hd Hc. cbn zeta.
  unfold recreate_sqlite_table. unfold_run. unfold sqlite_run, outcome, final. cbn.
  rewrite Hp. cbn. rewrite Hd. cbn. rewrite Hc. cbn.
  by rewrite lookup_delete_eq.
Qed.

(** X2 when no column of the allow-list exists at the source: the
    earlier export of [contacts] is lost. *)
Lemma recreate_create_refused_witness :
  outcome (recreate_sqlite_table "contacts" []
             (sqlite_opened sample_destination sample_syntax_fault))
  = Raise "near ')': syntax error"
  ∧ sq_file (final (recreate_sqlite_table "contacts" []
                      (sqlite_opened sample_destination sample_syntax_fault)))
      !! "contacts" = None.
Proof.
  destruct (recreate_create_refused
              (sqlite_opened sample_destination sample_syntax_fault)
              "contacts" [] "near ')': syntax error")
    as (Hout & _ & _ & Hfile); try reflexivity.
  split; [exact Hout|exact Hfile].
Defined.

(** X3. When the SELECT raises, the destination table has already been
    replaced by an empty one: [export_table] raises with the table empty
    and committed, and no update has been sent. *)
Theorem export_table_select_error (TABLE_FIELDS : gmap string (list string))
    (conn : mysql_conn) (table : string) (offset weight : Q) (total : Z)
    (discovered : list string) (e : exn) (c : sqlite_conn) :
  mysql_count conn table = Ok total →
  total ≠ 0 →
  mysql_show_columns conn table = Ok discovered →
  let columns := exported_columns TABLE_FIELDS table discovered in
  recreate_accepted (sq_fault c) table columns →
  mysql_select conn columns table (TABLE_FILTERS !! table) = Raise e →
  let r := export_table TABLE_FIELDS conn table ui offset weight c in
  outcome r = Raise e
  ∧ sq_file (final r) !! table = Some (SqliteTable columns [])
  ∧ progress_updates (trace r) = [].
Proof.
  intros Hcount Hnz Hshow columns Hrec Hsel. cbn zeta.
  rewrite (export_table_run _ _ _ _ _ _ _ _ Hshow) by done. fold columns.
  unfold export_body. rewrite (counted_rows_ok _ _ _ Hcount).
  destruct (Z.eqb_spec total 0) as [|_]; [done|].
  rewrite run_bind. unfold mysql_execute_select at 1. unfold_run. rewrite Hsel.
  unfold outcome, final, trace, recreated. cbn.
  by rewrite lookup_insert_eq.
Qed.

(** X3 on the sample server when the SELECT of [contacts] fails: the
    earlier export of [contacts] is replaced by an empty table. *)
Lemma export_table_select_error_witness :
  outcome (export_table ∅ sample_mysql_select_fault "contacts" ui 0 1
             (sqlite_opened sample_destination no_fault))
  = Raise "Lost connection to MySQL server during query"
  ∧ sq_file (final (export_table ∅ sample_mysql_select_fault "contacts" ui 0 1
                      (sqlite_opened sample_destination no_fault)))
      !! "contacts"
    = Some (SqliteTable ["id"; "name"; "email"] []).
Proof.
  destruct (export_table_select_error ∅ sample_mysql_select_fault "contacts" 0 1 3
              ["id"; "name"; "email"]
              "Lost connection to MySQL server during query"
              (sqlite_opened sample_destination no_fault))
    as (Hout & Hfile & _).
  - vm_compute. reflexivity.
  - discriminate.
  - vm_compute. reflexivity.
  - repeat split; vm_compute; reflexivity.
  - vm_compute. reflexivity.
  - split; [exact Hout|exact Hfile].
Defined.

(** ** [export_table]: what it leaves alone *)










(** X5. An export that returns normally leaves nothing uncommitted: the
    file holds what the connection sees and no transaction is open. *)
Theorem export_table_commits (TABLE_FIELDS : gmap string (list string))
    (conn : mysql_conn) (table : string) (offset weight : Q) (c : sqlite_conn) :
  let r := export_table TABLE_FIELDS conn table ui offset weight c in
  outcome r = Ok tt →
  sq_file (final r) = sq_view (final r) ∧ sq_in_transaction (final r) = false.
Proof. apply export_table_settled. Qed.

(** X5 on [contacts] of the sample server. *)
Lemma export_table_commits_witness :
  sq_file (final (export_table ∅ sample_mysql "contacts" ui 0 1
                               (sqlite_opened ∅ sample_fault)))
  = sq_view (final (export_table ∅ sample_mysql "contacts" ui 0 1
                                 (sqlite_opened ∅ sample_fault)))
  ∧ sq_in_transaction
      (final (export_table ∅ sample_mysql "contacts" ui 0 1
                           (sqlite_opened ∅ sample_fault))) = false.
Proof.
  apply (export_table_commits ∅ sample_mysql "contacts" 0 1
           (sqlite_opened ∅ sample_fault)).
  vm_compute. reflexivity.
Defined.

(** ** The loop over the pages *)

Lemma batches_app tr1 tr2 : batches (tr1 ++ tr2) = batches tr1 ++ batches tr2.
Proof. unfold batches. apply omap_app. Qed.

Lemma batches_cons e tr :
  batches (e :: tr)
  = match e with
    | ESqliteExecutemany _ _ b => b :: batches tr
    | _ => batches tr
    end.
Proof. by destruct e. Qed.

Lemma batches_progress_events l : batches (progress_events l) = [].
Proof. unfold batches, progress_events. by induction l. Qed.

Lemma export_table_pages_run TABLE_FIELDS conn table offset weight total discovered
    cursor c :
  mysql_count conn table = Ok total →
  total ≠ 0 →
  mysql_show_columns conn table = Ok discovered →
  let columns := exported_columns TABLE_FIELDS table discovered in
  recreate_accepted (sq_fault c) table columns →
  mysql_select conn columns table (TABLE_FILTERS !! table) = Ok cursor →
  export_table TABLE_FIELDS conn table ui offset weight c
  = let '(r, c2, tr2) :=
      export_pages (S (length cursor)) ui table columns offset weight total cursor 0
                   (recreated c table columns) in
    (r, c2, export_head table columns
              ++ EMysqlExecute (MySelect columns table (TABLE_FILTERS !! table))
              :: tr2).
Proof.
  intros Hcount Hnz Hshow columns Hrec Hsel.
  rewrite (export_table_run _ _ _ _ _ _ _ _ Hshow) by done. fold columns.
  unfold export_body. rewrite (counted_rows_ok _ _ _ Hcount).
  destruct (Z.eqb_spec total 0) as [|_]; [done|].
  rewrite run_bind. unfold mysql_execute_select at 1. unfold_run. rewrite Hsel.
  cbn [app].
  by destruct (export_pages _ _ _ _ _ _ _ _ _ _) as [[r c2] tr2].
Qed.

Lemma take_length_take {A} (n : nat) (l : list A) :
  take (length (take n l)) l = take n l.
Proof.
  rewrite length_take. destruct (decide (n ≤ length l)%nat).
  - by rewrite Nat.min_l.
  - rewrite Nat.min_r by lia. by rewrite !take_ge by lia.
Qed.

Lemma export_pages_batches fuel table cols offset weight total cursor k c :
  (length cursor < fuel)%nat →
  let r := export_pages fuel ui table cols offset weight total cursor k c in
  Forall (fun b => (1 ≤ length b ≤ CHUNK_SIZE)%nat) (batches (trace r))
  ∧ ∃ n : nat,
      (n ≤ length cursor)%nat
      ∧ concat (batches (trace r)) = convert_rows (take n cursor)
      ∧ (outcome r = Ok tt → n = length cursor).
Proof.
  revert cursor k c. induction fuel as [|fuel IH]; intros cursor k c Hlt; [lia|].
  destruct (decide (cursor = [])) as [->|Hne]; cbn zeta.
  - rewrite export_pages_nil. split; [constructor|]. by exists 0%nat.
  - rewrite export_pages_cons by done.
    assert (Hpage : (1 ≤ length (convert_rows (take CHUNK_SIZE cursor))
                     ≤ CHUNK_SIZE)%nat).
    { unfold convert_rows. rewrite length_fmap, length_take.
      destruct cursor; [done|]. pose proof CHUNK_SIZE_pos. cbn [length]. lia. }
    destruct (sqlite_run_many _ _ _ c) as [[[]|e] c1].
    + destruct (IH (drop CHUNK_SIZE cursor)
                   (k + Z.of_nat (length (take CHUNK_SIZE cursor)))
                   (sqlite_do_commit c1) (drop_chunk_shorter _ _ Hne Hlt))
        as (Hall & n & Hn & Hcat & Hok).
      destruct (export_pages fuel _ _ _ _ _ _ _ _ _) as [[r c2] tr2].
      unfold trace, outcome in *. cbn [fst snd] in *.
      rewrite !batches_cons, batches_app, batches_progress_events.
      cbn [app concat]. split; [by constructor|].
      exists (length (take CHUNK_SIZE cursor) + n)%nat.
      rewrite length_drop in Hn. rewrite length_take in *.
      split; [lia|]. split.
      * rewrite Hcat, <- convert_rows_app. f_equal.
        destruct (decide (CHUNK_SIZE ≤ length cursor)%nat).
        -- rewrite Nat.min_l by done. by rewrite <- take_take_drop.
        -- rewrite Nat.min_r by lia. rewrite drop_ge in * by lia.
           rewrite take_nil, app_nil_r. rewrite !take_ge by lia. done.
      * intros Hr. rewrite (Hok Hr), length_drop. lia.
    + unfold trace, outcome. cbn [fst snd]. rewrite !batches_cons.
      split; [constructor; [exact Hpage|constructor]|].
      exists (length (take CHUNK_SIZE cursor)).
      split; [rewrite length_take; lia|]. split; [|done].
      cbn [concat batches omap]. by rewrite app_nil_r, take_length_take.
Qed.

(** X6. Paging loses, repeats and reorders nothing: when the export of a
    table goes through, every batch handed to [executemany] holds between
    1 and [CHUNK_SIZE] rows, and the batches, one after the other, are the
    converted result set of the SELECT. *)
Theorem export_table_batches (TABLE_FIELDS : gmap string (list string))
    (conn : mysql_conn) (table : string) (offset weight : Q) (total : Z)
    (discovered : list string) (cursor : list row) (c : sqlite_conn) :
  mysql_count conn table = Ok total →
  total ≠ 0 →
  mysql_show_columns conn table = Ok discovered →
  let columns := exported_columns TABLE_FIELDS table discovered in
  recreate_accepted (sq_fault c) table columns →
  mysql_select conn columns table (TABLE_FILTERS !! table) = Ok cursor →
  Forall (accepted (sq_fault c) table columns) (convert_rows cursor) →
  let r := export_table TABLE_FIELDS conn table ui offset weight c in
  Forall (fun b => (1 ≤ length b ≤ CHUNK_SIZE)%nat) (batches (trace r))
  ∧ concat (batches (trace r)) = convert_rows cursor.
Proof.
  intros Hcount Hnz Hshow columns Hrec Hsel Hacc r.
  destruct (export_table_ok TABLE_FIELDS conn table offset weight total discovered
              cursor c Hcount Hnz Hshow Hrec Hsel Hacc) as (Hout & _).
  fold r in Hout. unfold r in *.
  rewrite (export_table_pages_run _ _ _ _ _ _ _ _ _ Hcount Hnz Hshow Hrec Hsel) in *.
  fold columns in Hout |- *.
  pose proof (export_pages_batches (S (length cursor)) table columns offset weight
                total cursor 0 (recreated c table columns)) as Hb.
  cbn zeta in Hb.
  destruct (export_pages _ _ _ _ _ _ _ _ _ _) as [[rr c2] tr2].
  unfold outcome, trace in *. cbn [fst snd] in *.
  destruct Hb as (Hall & n & _ & Hcat & Hn); [lia|].
  rewrite (Hn Hout), take_ge in Hcat by lia.
  rewrite batches_app, batches_cons. done.
Qed.

(** X6 on the table of 1050 rows: two batches, of 1000 and of 50 rows. *)
Lemma export_table_batches_witness :
  length <$> batches
    (trace (export_table ∅ sample_mysql "contact_phone_numbers" ui 0 1
                         (sqlite_opened ∅ sample_fault)))
  = [1000%nat; 50%nat]
  ∧ concat (batches
      (trace (export_table ∅ sample_mysql "contact_phone_numbers" ui 0 1
                           (sqlite_opened ∅ sample_fault))))
    = numbered_rows 1050.
Proof.
  destruct (export_table_batches ∅ sample_mysql "contact_phone_numbers" 0 1 1050
              ["id"] (numbered_rows 1050) (sqlite_opened ∅ sample_fault))
    as (_ & Hcat).
  - vm_compute. reflexivity.
  - discriminate.
  - vm_compute. reflexivity.
  - repeat split; vm_compute; reflexivity.
  - vm_compute. reflexivity.
  - refine (bool_decide_unpack _ _). vm_compute. exact I.
  - split; [vm_compute; reflexivity|].
    etrans; [exact Hcat|]. vm_compute. reflexivity.
Defined.

(** ** The updates of a table *)

Lemma StronglySorted_snoc {A} (R : A → A → Prop) (l : list A) (y : A) :
  StronglySorted R l → Forall (fun x => R x y) l → StronglySorted R (l ++ [y]).
Proof.
  induction 1 as [|x l Hl IH Hx]; intros Hy; cbn.
  - constructor; constructor.
  - apply Forall_cons in Hy as [Hxy Hy]. constructor; [by apply IH|].
    apply Forall_app. split; [done|]. by constructor.
Qed.

Lemma fraction_increasing (offset weight : Q) (k k' total : Z) :
  (0 < weight)%Q → 0 < total → k < k' →
  (offset + weight * (inject_Z k / inject_Z total)
   < offset + weight * (inject_Z k' / inject_Z total))%Q.
Proof.
  intros Hw Ht Hk. apply Qplus_lt_r. apply Qmult_lt_l; [done|].
  apply Qmult_lt_r.
  - apply Qinv_lt_0_compat. change 0%Q with (inject_Z 0). by rewrite <- Zlt_Qlt.
  - by rewrite <- Zlt_Qlt.
Qed.

Lemma fraction_above (offset weight : Q) (k total : Z) :
  (0 < weight)%Q → 0 < total → 0 < k →
  (offset < offset + weight * (inject_Z k / inject_Z total))%Q.
Proof.
  intros Hw Ht Hk.
  apply Qle_lt_trans with (offset + weight * (inject_Z 0 / inject_Z total))%Q.
  - apply Qle_lteq. right. unfold Qdiv. change (inject_Z 0) with 0%Q. ring.
  - by apply fraction_increasing.
Qed.

Lemma row_updates_snoc table offset weight total k0 n :
  row_updates table offset weight total k0 (S n)
  = row_updates table offset weight total k0 n
    ++ (if (k0 + Z.of_nat n + 1) mod 50 =? 0
        then [row_update table offset weight total (k0 + Z.of_nat n + 1)] else []).
Proof.
  replace (S n) with (n + 1)%nat by lia. rewrite row_updates_app. f_equal.
  rewrite row_updates_S. cbn. by rewrite app_nil_r.
Qed.

Lemma row_updates_sorted table offset weight total k0 n :
  (0 < weight)%Q → 0 < total →
  StronglySorted Qlt (row_updates table offset weight total k0 n).*1.
Proof.
  intros Hw Ht. induction n as [|n IH]; [constructor|].
  rewrite row_updates_snoc, fmap_app.
  destruct (_ =? 0); [|by rewrite app_nil_r].
  apply StronglySorted_snoc; [done|].
  apply Forall_forall. intros f Hf.
  apply list_elem_of_fmap in Hf as ([f' m] & -> & Hin).
  apply elem_of_row_updates in Hin as (k & Heq & Hk & _).
  unfold row_update in *. simplify_eq. cbn.
  apply fraction_increasing; [done|done|lia].
Qed.

(** The updates of the export of one table, in every run: increasing,
    above [offset], not above [offset + weight]. *)
Lemma export_table_progress_band TABLE_FIELDS conn table offset weight c :
  (0 < weight)%Q →
  let fractions :=
    (progress_updates
       (trace (export_table TABLE_FIELDS conn table ui offset weight c))).*1 in
  StronglySorted Qlt fractions
  ∧ Forall (fun f => (offset < f)%Q ∧ (f <= offset + weight)%Q) fractions.
Proof.
  intros Hw.
  destruct (Z.eq_dec (counted_rows conn table) 0) as [Hz|Hnz].
  - assert (Hcases :
      progress_updates
        (trace (export_table TABLE_FIELDS conn table ui offset weight c)) = []
      ∨ progress_updates
          (trace (export_table TABLE_FIELDS conn table ui offset weight c))
        = [((offset + weight)%Q, zero_rows_message table)]).
    { unfold export_table.
      rewrite run_bind, total_rows_run, run_bind.
      destruct (mysql_show_columns conn table) as [discovered|e] eqn:Hshow.
      2:{ rewrite (get_table_columns_raise _ _ _ _ _ Hshow). by left. }
      rewrite (get_table_columns_run _ _ _ _ _ Hshow), run_bind.
      set (columns := exported_columns TABLE_FIELDS table discovered).
      pose proof (recreate_no_progress table columns c) as Hrec.
      destruct (recreate_sqlite_table table columns c) as [[[[]|e] c1] tr1].
      2:{ left. unfold trace in *. cbn [fst snd] in *. simpl_updates.
          by rewrite Hrec. }
      rewrite Hz. cbn. right. unfold trace in *. cbn [fst snd] in *.
      simpl_updates. by rewrite Hrec. }
    cbn zeta. destruct Hcases as [-> | ->]; cbn.
    + split; constructor.
    + split; [repeat constructor|]. constructor; [|constructor]. split.
      * rewrite <- (Qplus_0_r offset) at 1. by apply Qplus_lt_r.
      * apply Qle_refl.
  - assert (Hcount : mysql_count conn table = Ok (counted_rows conn table)).
    { unfold counted_rows in *. by destruct (mysql_count conn table). }
    apply mysql_count_ok in Hcount as (src & Hsrc & Htotal).
    assert (Hpos : 0 < counted_rows conn table) by lia.
    destruct (export_table_progress TABLE_FIELDS conn table offset weight c Hnz)
      as (n & Hn & Hup).
    specialize (Hn _ Hsrc).
    pose proof (length_mysql_matching conn src (TABLE_FILTERS !! table)) as Hm.
    cbn zeta. rewrite Hup. split.
    + by apply row_updates_sorted.
    + apply Forall_forall. intros f Hf.
      apply list_elem_of_fmap in Hf as ([f' m] & -> & Hin).
      apply elem_of_row_updates in Hin as (k & Heq & Hk & _).
      unfold row_update in *. simplify_eq. cbn. split.
      * apply fraction_above; [done|done|lia].
      * destruct (decide (k = counted_rows conn table)) as [Hfull|Hlt].
        -- apply Qle_lteq. right. by apply fraction_full_iff.
        -- apply Qlt_le_weak. apply fraction_below; [done| |done]. lia.
Qed.

(** X7. The updates sent from within the export of a table carry
    strictly increasing fractions, all above [offset] and none above
    [offset + weight], whatever the engines answer or refuse: the bar
    never moves back and never leaves the band of the table.  (The weight
    is positive, as the one the worker passes.) *)
Theorem table_progress_increasing (TABLE_FIELDS : gmap string (list string))
    (conn : mysql_conn) (table : string) (offset weight : Q) (c : sqlite_conn) :
  (0 < weight)%Q →
  let fractions :=
    (progress_updates
       (trace (export_table TABLE_FIELDS conn table ui offset weight c))).*1 in
  StronglySorted Qlt fractions
  ∧ Forall (fun f => (offset < f)%Q ∧ (f <= offset + weight)%Q) fractions.
Proof. apply export_table_progress_band. Qed.

(** X7 on the table of 1050 rows of the sample server, as the second
    table of three. *)
Lemma table_progress_increasing_witness :
  StronglySorted Qlt
    (progress_updates
       (trace (export_table ∅ sample_mysql "contact_phone_numbers" ui (1 # 3) (1 # 3)
                            (sqlite_opened ∅ sample_fault)))).*1.
Proof.
  apply (table_progress_increasing ∅ sample_mysql "contact_phone_numbers"
           (1 # 3) (1 # 3) (sqlite_opened ∅ sample_fault)).
  reflexivity.
Defined.

Lemma length_row_updates table offset weight total k0 n :
  0 <= k0 →
  length (row_updates table offset weight total k0 n)
  = Z.to_nat ((k0 + Z.of_nat n) / 50 - k0 / 50).
Proof.
  intros Hk0. induction n as [|n IH].
  - cbn. rewrite Z.add_0_r, Z.sub_diag. done.
  - rewrite row_updates_snoc, length_app, IH.
    destruct (Z.eqb_spec ((k0 + Z.of_nat n + 1) mod 50) 0) as [H0|H0];
      cbn [length]; Z.div_mod_to_equations; lia.
Qed.

(** X8. When the export of a table goes through, the number of updates
    it sends is the number of rows inserted divided by 50, rounded down;
    in particular a table of fewer than 50 rows sends none. *)
Theorem table_progress_count (TABLE_FIELDS : gmap string (list string))
    (conn : mysql_conn) (table : string) (offset weight : Q) (total : Z)
    (discovered : list string) (cursor : list row) (c : sqlite_conn) :
  mysql_count conn table = Ok total →
  total ≠ 0 →
  mysql_show_columns conn table = Ok discovered →
  let columns := exported_columns TABLE_FIELDS table discovered in
  recreate_accepted (sq_fault c) table columns →
  mysql_select conn columns table (TABLE_FILTERS !! table) = Ok cursor →
  Forall (accepted (sq_fault c) table columns) (convert_rows cursor) →
  let updates :=
    progress_updates
      (trace (export_table TABLE_FIELDS conn table ui offset weight c)) in
  length updates = Z.to_nat (Z.of_nat (length cursor) / 50)
  ∧ ((length cursor < 50)%nat → updates = []).
Proof.
  intros Hcount Hnz Hshow columns Hrec Hsel Hacc updates.
  destruct (export_table_ok TABLE_FIELDS conn table offset weight total discovered
              cursor c Hcount Hnz Hshow Hrec Hsel Hacc) as (_ & _ & Hup & _).
  assert (Hlen : length updates = Z.to_nat (Z.of_nat (length cursor) / 50)).
  { unfold updates. rewrite Hup, length_row_updates by lia.
    rewrite Z.add_0_l. change (0 / 50) with 0. by rewrite Z.sub_0_r. }
  split; [done|]. intros Hshort. apply nil_length_inv. rewrite Hlen.
  rewrite Z.div_small by lia. done.
Qed.

(** X8 on the tables of 1050 rows and of 3 rows of the sample server. *)
Lemma table_progress_count_witness :
  length (progress_updates
            (trace (export_table ∅ sample_mysql "contact_phone_numbers" ui 0 1
                                 (sqlite_opened ∅ sample_fault))))
  = 21%nat.
Proof.
  destruct (table_progress_count ∅ sample_mysql "contact_phone_numbers" 0 1 1050
              ["id"] (numbered_rows 1050) (sqlite_opened ∅ sample_fault))
    as (Hlen & _).
  - vm_compute. reflexivity.
  - discriminate.
  - vm_compute. reflexivity.
  - repeat split; vm_compute; reflexivity.
  - vm_compute. reflexivity.
  - refine (bool_decide_unpack _ _). vm_compute. exact I.
  - etrans; [exact Hlen|]. vm_compute. reflexivity.
Defined.

(** ** Without a callback, and the bound of the loop *)

Lemma silent_app tr1 tr2 : silent (tr1 ++ tr2) = silent tr1 ++ silent tr2.
Proof. unfold silent. apply List.filter_app. Qed.

Lemma silent_progress_events l : silent (progress_events l) = [].
Proof. unfold silent, progress_events. by induction l. Qed.

Lemma report_rows_none table offset weight total batch k0 c :
  report_rows None table offset weight total batch k0 c
  = (Ok (k0 + Z.of_nat (length batch)), c, []).
Proof.
  revert k0. induction batch as [|r batch IH]; intros k0.
  - cbn. unfold_run. by rewrite Z.add_0_r.
  - cbn [report_rows length]. rewrite run_bind.
    destruct ((k0 + 1) mod 50 =? 0); cbn; rewrite IH; do 2 f_equal; f_equal; lia.
Qed.

Lemma export_pages_nil_none fuel table cols offset weight total k c :
  export_pages (S fuel) None table cols offset weight total [] k c
  = (Ok tt, c, [EMysqlFetchmany CHUNK_SIZE []]).
Proof.
  cbn [export_pages]. unfold_run. cbn. by rewrite take_nil.
Qed.

Lemma export_pages_cons_none fuel table cols offset weight total cursor k c :
  cursor ≠ [] →
  let page := take CHUNK_SIZE cursor in
  let batch := convert_rows page in
  export_pages (S fuel) None table cols offset weight total cursor k c
  = match sqlite_run_many table cols batch c with
    | (Raise e, c1) =>
      (Raise e, c1,
       [EMysqlFetchmany CHUNK_SIZE page; ESqliteExecutemany table cols batch])
    | (Ok _, c1) =>
      let '(r, c2, tr2) :=
        export_pages fuel None table cols offset weight total
                     (drop CHUNK_SIZE cursor) (k + Z.of_nat (length page))
                     (sqlite_do_commit c1) in
      (r, c2,
       EMysqlFetchmany CHUNK_SIZE page
         :: ESqliteExecutemany table cols batch
         :: ESqliteCommit :: tr2)
    end.
Proof.
  intros Hne page batch.
  assert (Hpage : page ≠ []) by by apply take_chunk_nonempty.
  cbn [export_pages]. rewrite run_bind.
  change (fetchmany CHUNK_SIZE cursor c)
    with (Ok (page, drop CHUNK_SIZE cursor), c, [EMysqlFetchmany CHUNK_SIZE page]).
  cbn [fst snd]. rewrite match_nonempty by done.
  fold batch. rewrite run_bind. unfold sqlite_executemany at 1.
  destruct (sqlite_run_many table cols batch c) as [[[]|e] c1]; [|done].
  rewrite run_bind. unfold sqlite_commit at 1.
  rewrite run_bind, report_rows_none.
  unfold batch, convert_rows. rewrite length_fmap.
  destruct (export_pages fuel _ _ _ _ _ _ _ _ _) as [[r c2] tr2]. reflexivity.
Qed.

Lemma export_pages_none fuel table cols offset weight total cursor k c :
  (length cursor < fuel)%nat →
  export_pages fuel None table cols offset weight total cursor k c
  = let '(r, c2, tr) :=
      export_pages fuel ui table cols offset weight total cursor k c in
    (r, c2, silent tr).
Proof.
  revert cursor k c. induction fuel as [|fuel IH]; intros cursor k c Hlt; [lia|].
  destruct (decide (cursor = [])) as [->|Hne].
  - by rewrite export_pages_nil, export_pages_nil_none.
  - rewrite export_pages_cons, export_pages_cons_none by done.
    destruct (sqlite_run_many _ _ _ c) as [[[]|e] c1]; [|done].
    rewrite IH by by apply drop_chunk_shorter.
    destruct (export_pages fuel ui _ _ _ _ _ _ _ _) as [[r c2] tr2].
    cbn [silent List.filter]. fold (silent (progress_events
      (row_updates table offset weight total k (length (take CHUNK_SIZE cursor)))
      ++ tr2)).
    by rewrite silent_app, silent_progress_events.
Qed.

(** X9. The callback has no part in what is written: called without one
    ([progress_callback=None]), [export_table] ends with the same result
    and the same destination as with the window's callback, and its trace
    is the same with the progress updates left out. *)
Theorem export_table_without_callback (TABLE_FIELDS : gmap string (list string))
    (conn : mysql_conn) (table : string) (offset weight : Q) (c : sqlite_conn) :
  export_table TABLE_FIELDS conn table None offset weight c
  = let '(r, c2, tr) := export_table TABLE_FIELDS conn table ui offset weight c in
    (r, c2, silent tr).
Proof.
  unfold export_table.
  rewrite !run_bind, !total_rows_run, !run_bind.
  destruct (mysql_show_columns conn table) as [discovered|e] eqn:Hshow.
  2:{ by rewrite !(get_table_columns_raise _ _ _ _ _ Hshow). }
  rewrite !(get_table_columns_run _ _ _ _ _ Hshow), !run_bind.
  set (columns := exported_columns TABLE_FIELDS table discovered).
  pose proof (recreate_no_progress table columns c) as Hrec.
  destruct (recreate_sqlite_table table columns c) as [[[[]|e] c1] tr1].
  2:{ unfold trace in Hrec. cbn [fst snd] in Hrec. cbn [app silent List.filter].
      fold (silent tr1). f_equal. do 2 f_equal.
      clear -Hrec. induction tr1 as [|ev tr1 IH]; [done|].
      rewrite progress_updates_cons in Hrec. destruct ev; try done;
        cbn [silent List.filter]; f_equal; by apply IH. }
  assert (Hsilent : silent tr1 = tr1).
  { unfold trace in Hrec. cbn [fst snd] in Hrec.
    clear -Hrec. induction tr1 as [|ev tr1 IH]; [done|].
    rewrite progress_updates_cons in Hrec. destruct ev; try done;
      cbn [silent List.filter]; f_equal; by apply IH. }
  destruct (counted_rows conn table =? 0).
  { cbn. unfold_run. cbn [app silent List.filter]. fold (silent (tr1 ++ [])).
    fold (silent (tr1 ++ [EProgress (offset + weight) (zero_rows_message table)])).
    rewrite !silent_app, Hsilent. done. }
  rewrite !run_bind. unfold mysql_execute_select. unfold_run.
  destruct (mysql_select conn columns table (TABLE_FILTERS !! table))
    as [cursor|e] eqn:Hsel.
  2:{ cbn [app silent List.filter]. fold (silent (tr1 ++ [EMysqlExecute
        (MySelect columns table (TABLE_FILTERS !! table))])).
      by rewrite silent_app, Hsilent. }
  cbn [app]. rewrite export_pages_none by lia.
  destruct (export_pages _ ui _ _ _ _ _ _ _ _) as [[r c2] tr2].
  cbn [silent List.filter].
  fold (silent (tr1 ++ EMysqlExecute (MySelect columns table (TABLE_FILTERS !! table))
                  :: tr2)).
  rewrite silent_app, Hsilent. done.
Qed.

Lemma export_pages_fuel fuel1 fuel2 table cols offset weight total cursor k c :
  (length cursor < fuel1)%nat →
  (length cursor < fuel2)%nat →
  export_pages fuel1 ui table cols offset weight total cursor k c
  = export_pages fuel2 ui table cols offset weight total cursor k c.
Proof.
  revert fuel2 cursor k c.
  induction fuel1 as [|fuel1 IH]; intros fuel2 cursor k c H1 H2; [lia|].
  destruct fuel2 as [|fuel2]; [lia|].
  destruct (decide (cursor = [])) as [->|Hne].
  - by rewrite !export_pages_nil.
  - rewrite !export_pages_cons by done.
    destruct (sqlite_run_many _ _ _ c) as [[[]|e] c1]; [|done].
    by rewrite (IH fuel2) by by apply drop_chunk_shorter.
Qed.

(** X10. The loop over the pages ends: with any bound above the number
    of rows of the cursor its run is the one [export_table] performs, so
    the bound of the model is never what stops it; and the run fetches at
    most once more than there are rows. *)
Theorem export_pages_terminates (fuel : nat) (table : string) (cols : list string)
    (offset weight : Q) (total : Z) (cursor : list row) (k : Z) (c : sqlite_conn) :
  (length cursor < fuel)%nat →
  let r := export_pages (S (length cursor)) ui table cols offset weight total
                        cursor k c in
  export_pages fuel ui table cols offset weight total cursor k c = r
  ∧ (length (batches (trace r)) ≤ length cursor)%nat.
Proof.
  intros Hlt r. split; [apply export_pages_fuel; lia|].
  destruct (export_pages_batches (S (length cursor)) table cols offset weight total
              cursor k c) as (Hall & n & Hn & Hcat & _); [lia|].
  fold r in Hall, Hcat. apply (f_equal length) in Hcat.
  unfold convert_rows in Hcat. rewrite length_fmap, length_take in Hcat.
  assert (Hsum : (length (batches (trace r)) ≤ length (concat (batches (trace r))))%nat).
  { clear -Hall. induction Hall as [|b l Hb _ IH]; [done|].
    cbn [concat length]. rewrite length_app. lia. }
  lia.
Qed.

(** X10 on the table of 1050 rows, with a bound of 5000. *)
Lemma export_pages_terminates_witness :
  export_pages 5000 ui "contact_phone_numbers" ["id"] 0 1 1050
               (numbered_rows 1050) 0
               (recreated (sqlite_opened ∅ sample_fault) "contact_phone_numbers" ["id"])
  = export_pages (S (length (numbered_rows 1050))) ui "contact_phone_numbers" ["id"]
                 0 1 1050 (numbered_rows 1050) 0
                 (recreated (sqlite_opened ∅ sample_fault) "contact_phone_numbers"
                            ["id"]).
Proof.
  apply (export_pages_terminates 5000 "contact_phone_numbers" ["id"] 0 1 1050
           (numbered_rows 1050) 0).
  vm_compute. lia.
Defined.

(** ** A whole table, copied *)








(** ** Whole runs of the worker *)








(** X13. The first table whose export raises, for whatever reason, ends
    the run: the tables after it are not touched (the outcome does not
    depend on them beyond the weight they give), the destination file is
    the one the failing export left committed, and the worker closes both
    connections, sends "Export failed: <error>" at 0 and shows the error
    in a dialog instead of raising. *)
Theorem run_aborts_at_first_error (TABLE_FIELDS : gmap string (list string))
    (conn : mysql_conn) (done_tables : list string) (t : string)
    (later : list string) (path : string)
    (file : gmap string sqlite_table) (fault : sqlite_stmt → option exn)
    (e : exn) (c1 : sqlite_conn) (tr_done : list event) :
  let selected := done_tables ++ t :: later in
  let w := RdsExportUI.per_table_weight selected in
  let offset := (w * inject_Z (Z.of_nat (length done_tables)))%Q in
  opening_accepted fault →
  RdsExportUI.export_loop TABLE_FIELDS conn w done_tables 0 (sqlite_opened file fault)
    = (Ok tt, c1, tr_done) →
  let rt := export_table TABLE_FIELDS conn t ui offset w c1 in
  outcome rt = Raise e →
  let r := RdsExportUI._export_worker TABLE_FIELDS selected (Ok conn) None path
             (sqlite_opened file fault) in
  outcome r = Ok tt
  ∧ sq_file (final r) = sq_file (final rt)
  ∧ sq_view (final r) = sq_file (final rt)
  ∧ trace r
    = opening_trace ++ tr_done
        ++ EProgress offset ("Preparing to export " +:+ t +:+ "...")
        :: trace rt
        ++ [ ESqliteClose; EMysqlClose;
             EProgress 0 ("Export failed: " +:+ e);
             EShowError "Export failed"
                        ("An error occurred during export:" +:+ nl +:+ e);
             ERunButton true; ERefreshStatus ].
Proof.
  intros selected w offset Hopen Hdone rt Hout r.
  assert (Hloop :
    RdsExportUI.export_loop TABLE_FIELDS conn w selected 0 (sqlite_opened file fault)
    = (Raise e, final rt, tr_done ++ EProgress offset (preparing t) :: trace rt)).
  { unfold selected. rewrite export_loop_app, Hdone, export_loop_cons.
    rewrite Z.add_0_l. fold offset rt.
    destruct rt as [[rr ct] trt]. unfold outcome in Hout. cbn in Hout. by subst rr. }
  unfold r. rewrite export_worker_run; [|by destruct done_tables|done].
  fold w. rewrite Hloop. unfold outcome, final, trace. cbn [fst snd].
  split; [done|]. split; [done|]. split; [done|].
  unfold failure_trace, preparing. rewrite <- ?app_assoc. cbn [app].
  by rewrite <- ?app_assoc.
Qed.

(** X13 on the sample server: the second of three tables does not exist
    at the source; the first one stays exported, the third is never
    reached. *)
Lemma run_aborts_at_first_error_witness :
  map_to_list
    (sq_file (final (RdsExportUI._export_worker ∅
                       ["contact_addresses"; "accounts"; "remove_contacts"]
                       (Ok sample_mysql) None "out.db"
                       (sqlite_opened ∅ sample_fault))))
  = [("contact_addresses", SqliteTable ["id"] [[VInt 1]])].
Proof.
  edestruct (run_aborts_at_first_error ∅ sample_mysql ["contact_addresses"]
               "accounts" ["remove_contacts"] "out.db" ∅ sample_fault
               "Table 'accounts' doesn't exist")
    as (_ & Hfile & _).
  - split; reflexivity.
  - vm_compute. reflexivity.
  - vm_compute. reflexivity.
  - etrans; [exact (f_equal map_to_list Hfile)|]. vm_compute. reflexivity.
Defined.

(** ** The window after a run *)

Lemma ui_after_app creds_present s tr1 tr2 :
  ui_after creds_present s (tr1 ++ tr2)
  = ui_after creds_present (ui_after creds_present s tr1) tr2.
Proof. unfold ui_after. apply foldl_app. Qed.

Lemma ui_after_cons creds_present s e tr :
  ui_after creds_present s (e :: tr)
  = ui_after creds_present (ui_step creds_present s e) tr.
Proof. reflexivity. Qed.

Lemma export_worker_open_error TABLE_FIELDS selected conn sqlite_connect path e c :
  selected ≠ [] →
  opening_error sqlite_connect (sq_fault c) = Some e →
  ∃ attempts,
    RdsExportUI._export_worker TABLE_FIELDS selected (Ok conn) sqlite_connect path c
    = (Ok tt, c,
       EProgress (2 # 100) "Connecting to MySQL..."
         :: attempts
         ++ [ EShowError "SQLite error"
                         ("Failed to open/create SQLite DB:" +:+ nl +:+ e);
              EMysqlClose; ERunButton true ])
    ∧ Forall (fun ev => match ev with
                        | ESqliteConnect | ESqliteExecute (SqPragma _) => True
                        | _ => False
                        end) attempts.
Proof.
  intros Hne Herr. unfold RdsExportUI._export_worker.
  destruct selected as [|t0 rest]; [done|].
  unfold opening_error in Herr.
  unfold RdsExportUI.progress_callback. unfold_run. unfold sqlite_run.
  destruct sqlite_connect as [e0|].
  { simplify_eq. exists []. split; [done|constructor]. }
  cbn -[RdsExportUI.export_loop RdsExportUI.per_table_weight].
  destruct (sq_fault c (SqPragma "journal_mode=WAL")) as [e1|].
  { simplify_eq. eexists [_; _]. split; [reflexivity|]. by repeat constructor. }
  cbn -[RdsExportUI.export_loop RdsExportUI.per_table_weight].
  rewrite Herr.
  eexists [_; _; _]. split; [reflexivity|]. by repeat constructor.
Qed.

(** X14. What the window shows when the worker is over, whatever the
    engines did.  Nothing selected: the window as it was, the button
    enabled.  No MySQL connection: bar at 0, "Connection failed.".  The
    destination cannot be opened: the bar stays at 0.02 under "Connecting
    to MySQL...", no update tells of the failure.  In every other run,
    complete or failed: the bar back at 0 under "Waiting to start...",
    the report of completion or of failure does not stay.  The button is
    enabled again in all cases. *)
Theorem window_after_run (TABLE_FIELDS : gmap string (list string))
    (selected : list string) (creds : credentials)
    (connect : credentials → result mysql_conn) (sqlite_connect : option exn)
    (path : string) (c : sqlite_conn) (s : ui_state) :
  let r := RdsExportUI._export_worker TABLE_FIELDS selected
             (get_mysql_connection creds connect) sqlite_connect path c in
  ui_after (credentials_present creds) s (trace r)
  = match selected with
    | [] => UiState (ui_bar s) (ui_label s) true
    | _ :: _ =>
      match get_mysql_connection creds connect with
      | Raise _ => UiState 0 "Connection failed." true
      | Ok _ =>
        match opening_error sqlite_connect (sq_fault c) with
        | Some _ => UiState (2 # 100) "Connecting to MySQL..." true
        | None => UiState 0 "Waiting to start..." true
        end
      end
    end.
Proof.
  intros r. unfold r. destruct selected as [|t0 rest]; [done|].
  destruct (get_mysql_connection creds connect) as [conn|e0] eqn:Hconn; [|done].
  assert (Hpresent : credentials_present creds = true).
  { unfold get_mysql_connection in Hconn.
    by destruct (credentials_present creds). }
  destruct (opening_error sqlite_connect (sq_fault c)) as [e|] eqn:Herr.
  - destruct (export_worker_open_error TABLE_FIELDS (t0 :: rest) conn sqlite_connect
                path e c) as (attempts & -> & Hatt); [done|done|].
    unfold trace. cbn [snd]. rewrite ui_after_cons, ui_after_app.
    assert (Hsame : ∀ s0, ui_after (credentials_present creds) s0 attempts = s0).
    { clear -Hatt. induction Hatt as [|ev l Hev _ IH]; intros s0; [done|].
      rewrite ui_after_cons.
      destruct ev as [| | | |[]| | | | | | | | | |]; try done; apply IH. }
    rewrite Hsame. done.
  - unfold opening_error in Herr. destruct sqlite_connect; [done|].
    destruct (sq_fault c (SqPragma "journal_mode=WAL")) eqn:Hwal; [done|].
    rewrite export_worker_run by done.
    destruct (RdsExportUI.export_loop _ _ _ _ _ c) as [[[[]|e] c1] tr];
      unfold trace; cbn [snd]; rewrite !ui_after_app;
      unfold completion_trace, failure_trace; cbn; by rewrite Hpresent.
Qed.

(** X15. With a credential missing or empty, no connection is attempted
    and the destination is not opened: whatever [connect] and the
    destination would do, the run is the error dialog and the update
    "Connection failed." at 0.  The port is not among the settings that
    are required. *)
Theorem run_without_credentials (TABLE_FIELDS : gmap string (list string))
    (selected : list string) (creds : credentials)
    (connect : credentials → result mysql_conn) (sqlite_connect : option exn)
    (path : string) (c : sqlite_conn) :
  selected ≠ [] →
  (truthy (DB_HOST creds) = false ∨ truthy (DB_USER creds) = false
   ∨ truthy (DB_PASSWORD creds) = false ∨ truthy (DB_NAME creds) = false) →
  RdsExportUI._export_worker TABLE_FIELDS selected
    (get_mysql_connection creds connect) sqlite_connect path c
  = (Ok tt, c,
     [ EProgress (2 # 100) "Connecting to MySQL...";
       EShowError "MySQL connection error"
         ("Failed to connect to MySQL:" +:+ nl +:+
          "Missing database credentials. Ensure DB_HOST, DB_USER, DB_PASSWORD, DB_NAME are set in .env");
       ERunButton true;
       EProgress 0 "Connection failed." ]).
Proof.
  intros Hne Hmissing.
  assert (Hpresent : credentials_present creds = false).
  { unfold credentials_present.
    destruct Hmissing as [H | [H | [H | H]]]; rewrite H;
      rewrite ?andb_false_r; done. }
  unfold get_mysql_connection. rewrite Hpresent. cbn [negb].
  destruct selected as [|t0 rest]; [done|]. reflexivity.
Qed.

(** X15 with an empty password. *)
Lemma run_without_credentials_witness :
  final (RdsExportUI._export_worker ∅ ["contacts"]
           (get_mysql_connection sample_credentials (fun _ => Ok sample_mysql))
           None "out.db" (sqlite_opened sample_destination no_fault))
  = sqlite_opened sample_destination no_fault.
Proof.
  rewrite (run_without_credentials ∅ ["contacts"] sample_credentials
             (fun _ => Ok sample_mysql) None "out.db"
             (sqlite_opened sample_destination no_fault)).
  - reflexivity.
  - discriminate.
  - right. right. left. reflexivity.
Defined.

(** ** The selection *)

Lemma dict_set_fresh {V} (k : string) (v : V) (d : list (string * V)) :
  k ∉ d.*1 → dict_set k v d = d ++ [(k, v)].
Proof.
  induction d as [|[k' v'] d IH]; intros Hk; [done|].
  cbn in Hk. apply not_elem_of_cons in Hk as [Hne Hk].
  cbn. rewrite decide_False by done. by rewrite IH.
Qed.

Lemma table_vars_from (d : list (string * bool)) (tables : list string) :
  NoDup (d.*1 ++ tables) →
  foldl (fun d t => dict_set t true d) d tables
  = d ++ ((fun t => (t, true)) <$> tables).
Proof.
  revert d. induction tables as [|t tables IH]; intros d Hnd.
  - by rewrite app_nil_r.
  - cbn [foldl]. apply NoDup_app in Hnd as (Hd & Hdis & Ht).
    rewrite dict_set_fresh by (intros Hin; apply (Hdis t Hin); left).
    rewrite IH.
    + by rewrite <- app_assoc.
    + rewrite fmap_app. cbn. rewrite <- app_assoc. cbn.
      apply NoDup_app. split; [done|]. split; [|done].
      intros x Hx. by apply Hdis.
Qed.

Lemma clicks_on_snoc (t x : string) (clicks : list string) :
  clicks_on t (clicks ++ [x])
  = (clicks_on t clicks + (if decide (x = t) then 1 else 0))%nat.
Proof.
  unfold clicks_on. rewrite filter_app, length_app. f_equal.
  rewrite filter_cons. by destruct (decide (x = t)).
Qed.

Lemma vars_after_clicks (tables clicks : list string) :
  NoDup tables →
  foldl click (table_vars tables) clicks
  = (fun t => (t, Nat.even (clicks_on t clicks))) <$> tables.
Proof.
  intros Hnd. induction clicks as [|x clicks IH] using rev_ind.
  - cbn [foldl]. unfold table_vars.
    rewrite (table_vars_from [] tables) by done. done.
  - rewrite foldl_app. cbn [foldl]. rewrite IH. unfold click.
    rewrite <- list_fmap_compose. apply list_fmap_ext. intros _ t _. cbn.
    rewrite clicks_on_snoc. destruct (decide (t = x)) as [->|Hne].
    + rewrite decide_True by done.
      replace (clicks_on x clicks + 1)%nat with (S (clicks_on x clicks)) by lia.
      by rewrite Nat.even_succ, <- Nat.negb_even.
    + rewrite decide_False by done. by rewrite Nat.add_0_r.
Qed.

(** X16. The tables a run exports are the configured ones whose box is
    ticked, in the configured order, each once: every table starts ticked
    and a click on its box turns it over, so a table is selected when it
    was clicked an even number of times.  (The configured names are
    distinct, as those of [TABLES_TO_EXPORT] are.) *)
Theorem selection_follows_the_boxes (tables clicks : list string) :
  NoDup tables →
  let selected := selected_tables (foldl click (table_vars tables) clicks) in
  selected = filter (fun t => Nat.even (clicks_on t clicks) = true) tables
  ∧ NoDup selected
  ∧ selected `sublist_of` tables
  ∧ (clicks = [] → selected = tables).
Proof.
  intros Hnd selected.
  assert (Hsel : selected
                 = filter (fun t => Nat.even (clicks_on t clicks) = true) tables).
  { unfold selected, selected_tables. rewrite vars_after_clicks by done.
    clear Hnd selected. induction tables as [|t tables IH]; [done|].
    cbn [fmap list_fmap]. rewrite !filter_cons. cbn [snd].
    destruct (decide (Nat.even (clicks_on t clicks) = true)); cbn; by rewrite IH. }
  split; [done|]. rewrite Hsel. split; [by apply NoDup_filter|].
  split; [apply sublist_filter|].
  intros ->. clear. induction tables as [|t tables IH]; [done|].
  rewrite filter_cons_True by done. by rewrite IH.
Qed.

(** X16 on the configured tables, after three clicks. *)
Lemma selection_follows_the_boxes_witness :
  selected_tables
    (foldl click (table_vars TABLES_TO_EXPORT)
           ["remove_contacts"; "contacts"; "remove_contacts"])
  = [ "contact_skip_traced_addresses"; "contact_addresses";
      "contact_phone_numbers"; "contact_email_addresses"; "contact_serial_numbers";
      "contact_targets"; "remove_contacts"; "upload_processors" ].
Proof.
  destruct (selection_follows_the_boxes TABLES_TO_EXPORT
              ["remove_contacts"; "contacts"; "remove_contacts"])
    as (Hsel & _).
  - refine (bool_decide_unpack _ _). vm_compute. exact I.
  - etrans; [exact Hsel|]. vm_compute. reflexivity.
Defined.

(** ** The bar over a whole run *)





